(** * A shallow embedding of [chunksumm.py] (dsci_2022)

    The module [Embedding] models [CHUNKSUMM.get_embedding] and the
    [chunk] property ([torch.split] with window 512 along the token axis).
    The pretrained encoder is a parameter: it is the external capability of
    the spec, a function from the three (batch, seq) tensors to the tuple of
    hidden states ([self.bert(...)[2]] with [output_hidden_states=True]).

    Tensors of shape (batch, seq, ...) are stored along the token axis:
    a (batch, seq) tensor is the list of its [seq] columns, each column
    holding the values of all batch elements at that position.  Slicing
    [x[:, :512]], [torch.split(..., dim=1)] and [torch.cat(..., dim=1)] are
    then [firstn], slicing of the list, and [concat]. *)

From Stdlib Require Import String.
From Stdlib Require Import List ZArith QArith Lia Bool Permutation.
From Stdlib Require Import Orders Mergesort.
Import ListNotations.
Open Scope nat_scope.

(** Python/torch operations that raise are modelled by [None]. *)
Fixpoint map_opt {A B} (f : A -> option B) (l : list A) : option (list B) :=
  match l with
  | [] => Some []
  | x :: xs =>
      match f x with
      | Some y => match map_opt f xs with
                  | Some ys => Some (y :: ys)
                  | None => None
                  end
      | None => None
      end
  end.

Module Embedding.

(** [torch.split(x, size, dim=1)]: ATen computes the number of splits as
    [max(ceil(len / size), 1)] and narrows window [i] to
    [[size * i, size * i + size)], the last one possibly shorter. *)
Definition torch_split {A} (size : nat) (x : list A) : list (list A) :=
  let num_splits := Nat.max ((length x + size - 1) / size) 1 in
  map (fun i => firstn size (skipn (size * i) x)) (seq 0 num_splits).

(** The [chunk] property: [partial(torch.split, split_size_or_sections=512, dim=1)]. *)
Definition chunk {A} (x : list A) : list (list A) := torch_split 512 x.

(** Python's [zip] over three iterables: stops at the shortest. *)
Fixpoint zip3 {A B C} (xs : list A) (ys : list B) (zs : list C)
  : list (A * B * C) :=
  match xs, ys, zs with
  | x :: xs', y :: ys', z :: zs' => (x, y, z) :: zip3 xs' ys' zs'
  | _, _, _ => []
  end.

(** [l[-k:]] *)
Definition last_layers {A} (k : nat) (l : list A) : list A :=
  skipn (length l - k) l.

Definition zip_with {A B C} (f : A -> B -> C) (xs : list A) (ys : list B)
  : list C :=
  map (fun p => f (fst p) (snd p)) (combine xs ys).

(** A (batch, seq, 768) tensor of hidden vectors of type [V], by token
    position. *)
Abbreviation Hidden V := (list (list V)).

Section Model.

(** One 768-dimensional hidden vector, and the element-wise mean of a
    list of them. *)
Variable V : Type.
Variable vmean : list V -> V.

(** A (batch, seq) integer tensor, by token position. *)
Definition Column := list Z.
Definition Batch2 := list Column.

(** The encoder: [self.bert(ids, mask, types, output_hidden_states=True)[2]]. *)
Variable bert : Batch2 -> Batch2 -> Batch2 -> list (Hidden V).

Definition shape (h : Hidden V) : list nat := map (@length V) h.

Definition push_layer (acc : list (list (list V))) (h : Hidden V)
  : list (list (list V)) :=
  zip_with (zip_with (fun vs v => vs ++ [v])) acc h.

(** [torch.stack(ls)]: raises on an empty list and on tensors of different
    shapes; the stacked tensor is kept as the list of its slices along the
    new first axis. *)
Definition stack (ls : list (Hidden V)) : option (list (Hidden V)) :=
  match ls with
  | [] => None
  | h0 :: rest =>
      if forallb (fun h => if list_eq_dec Nat.eq_dec (shape h) (shape h0)
                           then true else false) rest
      then Some ls else None
  end.

(** [t.mean(0)] of a stacked tensor [t]: the element-wise mean over the
    first axis.  [pool] only takes it of a non-empty slice. *)
Definition mean0 (ls : list (Hidden V)) : Hidden V :=
  match ls with
  | [] => []
  | h0 :: rest =>
      map (map vmean) (fold_left push_layer rest (map (map (fun v => [v])) h0))
  end.

(** [torch.stack(hidden_states)[-5:].mean(0)]: every hidden state is
    stacked, then the last five slices are averaged. *)
Definition pool (hs : list (Hidden V)) : option (Hidden V) :=
  match stack hs with
  | Some stacked => Some (mean0 (last_layers 5 stacked))
  | None => None
  end.

(** [torch.cat(handler, dim=1)]: raises on an empty list.  All windows
    come from one batch, so the other dimensions always agree. *)
Definition cat (hs : list (Hidden V)) : option (Hidden V) :=
  match hs with
  | [] => None
  | _ => Some (concat hs)
  end.

Definition chunk_embedding (w : Batch2 * Batch2 * Batch2) : option (Hidden V) :=
  match w with (a, b, c) => pool (bert a b c) end.

(** [CHUNKSUMM.get_embedding] *)
Definition get_embedding (enable_chunk : bool)
    (input_ids attention_mask token_type_ids : Batch2) : option (Hidden V) :=
  if enable_chunk then
    let batch_chunks0 := chunk input_ids in
    let batch_chunks1 := chunk attention_mask in
    let batch_chunks2 := chunk token_type_ids in
    match map_opt chunk_embedding
            (zip3 batch_chunks0 batch_chunks1 batch_chunks2) with
    | Some handler => cat handler
    | None => None
    end
  else
    pool (bert (firstn 512 input_ids) (firstn 512 attention_mask)
               (firstn 512 token_type_ids)).

(** The encoder returns, for every window of equal-length inputs, a
    non-empty tuple of layers all of one shape, with one row per position
    of the window. *)
Definition encoder_keeps_length : Prop :=
  forall a b c : Batch2, length a = length b -> length a = length c ->
    bert a b c <> [] /\
    exists sh, length sh = length a /\ Forall (fun h => shape h = sh) (bert a b c).

End Model.

End Embedding.

(** Floating-point values as the code can hold them in a target tensor:
    a finite value (a rational), an infinity, or NaN. *)
Inductive fval : Type :=
| FNum (q : Q)
| FInf (negative : bool)
| FNaN.

(** [sorted(...)] on paper ids, as [groupby] orders its keys. *)
Module ZLeb <: Orders.TotalLeBool.
Definition t := Z.
Definition leb := Z.leb.
Theorem leb_total : forall a1 a2, leb a1 a2 = true \/ leb a2 a1 = true.
Proof.
  intros a1 a2. unfold leb.
  destruct (Z.le_ge_cases a1 a2); [left | right]; apply Z.leb_le; lia.
Qed.
End ZLeb.

Module ZSort := Sort ZLeb.

(** ** [SuMM_with_tokenizer] *)
Module Dataset.

(** One row of the DataFrame.  A pandas missing value (NaN) in [text] or
    [in_summary] is [None]. *)
Record Row : Type := {
  paper_id : Z;
  text : option String.string;
  in_summary : option bool
}.

(** The DataFrame: its column names and its rows, with the default
    [RangeIndex], so that index labels are row positions. *)
Record Frame : Type := {
  columns : list String.string;
  rows : list Row
}.

Definition has_col (f : Frame) (c : String.string) : bool :=
  existsb (String.eqb c) (columns f).

(** What the tokenizer returns: [input_ids], [token_type_ids],
    [attention_mask]. *)
Record Encoding : Type := {
  enc_input_ids : list Z;
  enc_token_type_ids : list Z;
  enc_attention_mask : list Z
}.

(** The tokens dict after [row["tokens"].update({"targets": ...})]: the
    targets hold the [in_summary] cell of the row, repeated. *)
Record LabeledTokens : Type := {
  lt_input_ids : list Z;
  lt_token_type_ids : list Z;
  lt_attention_mask : list Z;
  lt_targets : list (option bool)
}.

(** A dict returned by [__getitem__] (the flattened tensors). *)
Record Example : Type := {
  input_ids : list Z;
  attention_mask : list Z;
  token_type_ids : list Z;
  targets : list fval
}.

(** The state built by [__init__]. *)
Record SuMM : Type := {
  data : Frame;
  process_paper_level : bool;
  papers_dict : list (list nat)
}.

Definition dummy_row : Row := {| paper_id := 0; text := None; in_summary := None |}.

(** The sorted distinct keys of [groupby('paper_id')]. *)
Definition group_keys (ks : list Z) : list Z := ZSort.sort (nodup Z.eq_dec ks).

(** [data.groupby('paper_id').groups.values()]: for each key, in key order,
    the index labels of its rows in row order. *)
Definition group_indices (rs : list Row) : list (list nat) :=
  map (fun k => filter (fun j => Z.eqb (paper_id (nth j rs dummy_row)) k)
                  (seq 0 (length rs)))
      (group_keys (map paper_id rs)).

(** [SuMM_with_tokenizer.__init__]: stores its arguments and builds
    [papers_dict]; [groupby('paper_id')] raises when there is no such
    column. *)
Definition SuMM_init (f : Frame) (paper_level : bool) : option SuMM :=
  if has_col f "paper_id"%string
  then Some {| data := f; process_paper_level := paper_level;
               papers_dict := group_indices (rows f) |}
  else None.

(** [data.loc[labels, :]] *)
Definition loc (f : Frame) (labels : list nat) : option Frame :=
  match map_opt (nth_error (rows f)) labels with
  | Some rs => Some {| columns := columns f; rows := rs |}
  | None => None
  end.

(** Python truthiness of an [in_summary] cell: NaN is truthy. *)
Definition truthy (c : option bool) : bool :=
  match c with Some b => b | None => true end.

(** The value a target cell takes in a tensor. *)
Definition cell_val (c : option bool) : fval :=
  match c with
  | Some true => FNum 1
  | Some false => FNum 0
  | None => FNaN
  end.

Definition label_row (r : Row) (e : Encoding) : LabeledTokens :=
  {| lt_input_ids := enc_input_ids e;
     lt_token_type_ids := enc_token_type_ids e;
     lt_attention_mask := enc_attention_mask e;
     lt_targets := repeat (in_summary r) (length (enc_input_ids e)) |}.

(** The [agg] lambda: [sum([...], start=[])] of each field. *)
Definition aggregate (l : list LabeledTokens) : LabeledTokens :=
  {| lt_input_ids := concat (map lt_input_ids l);
     lt_token_type_ids := concat (map lt_token_type_ids l);
     lt_attention_mask := concat (map lt_attention_mask l);
     lt_targets := concat (map lt_targets l) |}.

Section Tokenizer.

(** The tokenizer: text and [add_special_tokens]. *)
Variable tokenizer : String.string -> bool -> Encoding.

(** [SuMM_with_tokenizer.combine_inputs]: [df.text] raises without a
    [text] column, the tokenizer raises on a NaN text, [row["in_summary"]]
    raises without an [in_summary] column, and [to_list()[0]] raises when
    there is no group. *)
Definition combine_inputs (f : Frame) : option LabeledTokens :=
  if negb (has_col f "text"%string) then None else
  match map_opt (fun r => option_map (fun t => tokenizer t false) (text r))
                (rows f) with
  | None => None
  | Some toks =>
      if negb (has_col f "in_summary"%string) then None else
      let labeled := map (fun p => (paper_id (fst p), label_row (fst p) (snd p)))
                         (combine (rows f) toks) in
      match group_keys (map fst labeled) with
      | [] => None
      | k :: _ => Some (aggregate (map snd (filter (fun p => Z.eqb (fst p) k) labeled)))
      end
  end.

(** [SuMM_with_tokenizer.__getitem__], paper-level branch. *)
Definition getitem_paper (ds : SuMM) (index : nat) : option Example :=
  match nth_error (papers_dict ds) index with
  | None => None
  | Some labels =>
      match loc (data ds) labels with
      | None => None
      | Some paper =>
          match combine_inputs paper with
          | None => None
          | Some inputs =>
              Some {| input_ids := lt_input_ids inputs;
                      attention_mask := lt_attention_mask inputs;
                      token_type_ids := lt_token_type_ids inputs;
                      targets := map cell_val (lt_targets inputs) |}
          end
      end
  end.

(** [SuMM_with_tokenizer.__getitem__], sentence branch: [datum.text] and
    [datum.in_summary] raise without their column, the tokenizer raises on
    a NaN text, and the label is the truthiness of the cell. *)
Definition getitem_sentence (ds : SuMM) (index : nat) : option Example :=
  match nth_error (rows (data ds)) index with
  | None => None
  | Some datum =>
      if negb (has_col (data ds) "text"%string) then None else
      match text datum with
      | None => None
      | Some t =>
          let inputs := tokenizer t true in
          if negb (has_col (data ds) "in_summary"%string) then None else
          let input_len := length (enc_input_ids inputs) in
          let target := if truthy (in_summary datum)
                        then repeat (FNum 1) input_len
                        else repeat (FNum 0) input_len in
          Some {| input_ids := enc_input_ids inputs;
                  attention_mask := enc_attention_mask inputs;
                  token_type_ids := enc_token_type_ids inputs;
                  targets := target |}
      end
  end.

Definition getitem (ds : SuMM) (index : nat) : option Example :=
  if process_paper_level ds then getitem_paper ds index
  else getitem_sentence ds index.

End Tokenizer.

(** [SuMM_with_tokenizer.__len__]: in paper-level mode the number of
    distinct paper ids ([paper_id.value_counts().shape[0]]), otherwise the
    number of rows. *)
Definition len (ds : SuMM) : nat :=
  if process_paper_level ds
  then length (nodup Z.eq_dec (map paper_id (rows (data ds))))
  else length (rows (data ds)).

End Dataset.

(** ** [SummDataModule.collate] *)
Module Collate.
Import Dataset.

(** Rounding of an integer to the nearest [float32] value (24 significant
    bits, ties to even); int64 values never reach the float32 overflow. *)
Definition f32_of_Z (z : Z) : Z :=
  (let a := Z.abs z in
   let s := Z.log2 a - 23 in
   if s <=? 0 then z else
   let q := Z.shiftr a s in
   let r := a - Z.shiftl q s in
   let half := Z.shiftl 1 (s - 1) in
   let q' := if (half <? r) || ((r =? half) && Z.odd q) then q + 1 else q in
   Z.sgn z * Z.shiftl q' s)%Z.

(** [.int()] on an integral float32 value: out-of-range conversions are
    undefined in C++; x86 returns [INT32_MIN]. *)
Definition to_int32 (z : Z) : Z :=
  (if (- 2 ^ 31 <=? z) && (z <? 2 ^ 31) then z else - 2 ^ 31)%Z.

(** The element type of a tensor. *)
Inductive dtype : Type := Int32 | Float32.

(** The collated batch: each field a list of rows, with its element type. *)
Record Batch : Type := {
  b_input_ids : list (list Z);
  b_input_ids_dtype : dtype;
  b_attention_mask : list (list Z);
  b_attention_mask_dtype : dtype;
  b_token_type_ids : list (list Z);
  b_token_type_ids_dtype : dtype;
  b_targets : list (list fval);
  b_targets_dtype : dtype
}.

(** [pad]: [out = torch.zeros(max); out[:len(tensor)] = tensor]; the buffer
    is float32, and the slice assignment raises when the tensor is longer
    than [max]. *)
Definition pad {A B} (zero : B) (conv : A -> B) (maximum : nat) (t : list A)
  : option (list B) :=
  if length t <=? maximum then Some (map conv t ++ repeat zero (maximum - length t))
  else None.

Definition pad_int := @pad Z Z 0%Z f32_of_Z.
Definition pad_float := @pad fval fval (FNum 0) (fun v => v).

(** [SummDataModule.collate]: [max] of an empty batch raises.  Every
    padded row is a float32 [torch.zeros] buffer, [torch.stack] keeps that
    type, and [.int()] casts to int32. *)
Definition collate (batch : list Example) : option Batch :=
  match batch with
  | [] => None
  | _ =>
      let maximum := list_max (map (fun item => length (input_ids item)) batch) in
      match map_opt (fun d => pad_int maximum (input_ids d)) batch,
            map_opt (fun d => pad_int maximum (attention_mask d)) batch,
            map_opt (fun d => pad_float maximum (targets d)) batch with
      | Some input_ids_batch, Some attention_mask_batch, Some targets_batch =>
          Some {| b_input_ids := map (map to_int32) input_ids_batch;
                  b_input_ids_dtype := Int32;
                  b_attention_mask := map (map to_int32) attention_mask_batch;
                  b_attention_mask_dtype := Int32;
                  b_token_type_ids := repeat (repeat 0%Z maximum) (length batch);
                  b_token_type_ids_dtype := Int32;
                  b_targets := targets_batch;
                  b_targets_dtype := Float32 |}
      | _, _, _ => None
      end
  end.

End Collate.

(** ** [CHUNKSUMM.expand_targets] and the step functions *)
Module Steps.
Import Collate.

(** A float tensor: its shape and its elements in row-major order. *)
Record Tensor : Type := {
  shape : list nat;
  tdata : list Q
}.

Definition numel (t : Tensor) : nat := fold_right Nat.mul 1 (shape t).

(** [targets.bool()]: zero is false; NaN and infinities are true. *)
Definition to_bool (v : fval) : bool :=
  match v with
  | FNum q => negb (Qeq_bool q 0)
  | FInf _ => true
  | FNaN => true
  end.

(** [torch.tensor([1.,0.]) if val else torch.tensor([0.,1.])] *)
Definition expand_val (v : fval) : list Q :=
  if to_bool v then [1; 0]%Q else [0; 1]%Q.

(** [CHUNKSUMM.expand_targets]: one 2-vector per value, rows in order, then
    [torch.stack]; stacking nothing raises. *)
Definition expand_targets (targets : list (list fval)) : option Tensor :=
  let vals := concat targets in
  match vals with
  | [] => None
  | _ => Some {| shape := [length vals; 2]; tdata := flat_map expand_val vals |}
  end.

(** [labels.reshape_as(outputs)]: raises unless the element counts agree. *)
Definition reshape_as (t o : Tensor) : option Tensor :=
  if Nat.eqb (length (tdata t)) (numel o)
  then Some {| shape := shape o; tdata := tdata t |}
  else None.

(** Index of the first largest entry ([argmax]). *)
Fixpoint argmax_from (l : list Q) (i best : nat) (bv : Q) : nat :=
  match l with
  | [] => best
  | x :: l' => if Qlt_le_dec bv x then argmax_from l' (S i) i x
               else argmax_from l' (S i) best bv
  end.

Definition argmax (l : list Q) : nat :=
  match l with
  | [] => 0
  | x :: l' => argmax_from l' 1 0 x
  end.

(** The label read back from an expanded vector, following the spec:
    class 0 is "in summary". *)
Definition label_of_expanded (v : list Q) : bool := Nat.eqb (argmax v) 0.

(** An integer tensor: its shape and its elements in row-major order. *)
Record ITensor : Type := {
  ishape : list nat;
  idata : list Z
}.

(** [t.int()]: conversion to int32 truncates toward zero (the labels are
    0 or 1). *)
Definition q_trunc (q : Q) : Z := Z.quot (Qnum q) (Zpos (Qden q)).

Definition to_int (t : Tensor) : ITensor :=
  {| ishape := shape t; idata := map q_trunc (tdata t) |}.

(** What [self.log(name, value, ...)] records. *)
Definition Log := list (String.string * Q).

Section Model.

(** [self(ids, mask, types, train=...)]: encoder and linear head. *)
Variable forward : Batch -> bool -> Tensor.
(** [nn.BCEWithLogitsLoss()] on two tensors of one shape. *)
Variable bce : Tensor -> Tensor -> Q.
(** [self.auc]: [torchmetrics.AUROC(num_classes=n_classes)] on the outputs
    and the integer labels; it checks its inputs and may raise. *)
Variable auc : Tensor -> ITensor -> option Q.

(** [self.criterion(outputs, labels)]: raises when the shapes differ. *)
Definition criterion (o l : Tensor) : option Q :=
  if list_eq_dec Nat.eq_dec (shape o) (shape l) then Some (bce o l) else None.

(** The part shared by the three steps, as each of them writes it:
    expand, reshape, loss. *)
Definition loss_of (outputs : Tensor) (batch : Batch) : option (Q * Tensor) :=
  match expand_targets (b_targets batch) with
  | None => None
  | Some labels =>
      match reshape_as labels outputs with
      | None => None
      | Some labels => match criterion outputs labels with
                       | Some loss => Some (loss, labels)
                       | None => None
                       end
      end
  end.

(** [training_step]: after the loss, [self.auc(outputs, labels.int())],
    then the two [self.log] calls; returns loss, predictions and labels. *)
Definition training_step (batch : Batch) : option (Q * Tensor * Tensor * Log) :=
  let outputs := forward batch true in
  match loss_of outputs batch with
  | None => None
  | Some (loss, labels) =>
      match auc outputs (to_int labels) with
      | None => None
      | Some a => Some (loss, outputs, labels,
                        [("Loss_train"%string, loss); ("Auc_train"%string, a)])
      end
  end.

Definition validation_step (batch : Batch) : option (Q * Log) :=
  let outputs := forward batch false in
  match loss_of outputs batch with
  | None => None
  | Some (loss, labels) =>
      match auc outputs (to_int labels) with
      | None => None
      | Some a => Some (loss, [("Loss_val"%string, loss); ("Auc_val"%string, a)])
      end
  end.

Definition test_step (batch : Batch) : option (Q * Log) :=
  let outputs := forward batch false in
  match loss_of outputs batch with
  | None => None
  | Some (loss, labels) =>
      match auc outputs (to_int labels) with
      | None => None
      | Some a => Some (loss, [("Test_loss"%string, loss); ("Test_auc"%string, a)])
      end
  end.

End Model.

End Steps.

Arguments Embedding.shape {V}.
Arguments Embedding.push_layer {V}.
Arguments Embedding.stack {V}.
Arguments Embedding.mean0 {V}.
Arguments Embedding.pool {V}.
Arguments Embedding.cat {V}.
Arguments Embedding.chunk_embedding {V}.
Arguments Embedding.get_embedding {V}.
Arguments Embedding.encoder_keeps_length {V}.

(** ** [CHUNKSUMM.forward] *)
Module Forward.
Import Embedding Steps.

Section Model.

Variable V : Type.
Variable vmean : list V -> V.
Variable bert : Batch2 -> Batch2 -> Batch2 -> list (Hidden V).
(** [self.l1]: the linear layer, from one hidden vector to its
    [n_classes] logits. *)
Variable l1 : V -> list Q.
(** [torch.softmax(., dim=-1)] on the logits of one position. *)
Variable softmax : list Q -> list Q.

(** [CHUNKSUMM.forward]: embedding, linear head, and a softmax unless
    [train]. *)
Definition forward (input_ids attention_mask token_type_ids : Batch2)
    (enable_chunk train : bool) : option (Hidden (list Q)) :=
  match get_embedding vmean bert enable_chunk input_ids attention_mask token_type_ids with
  | None => None
  | Some embed2d =>
      let logits := map (map l1) embed2d in
      if train then Some logits else Some (map (map softmax) logits)
  end.

End Model.

Arguments forward {V}.

(** A collated (batch, seq) field, read by token position, as the encoder
    receives it. *)
Definition by_position (rows : list (list Z)) (m : nat) : Batch2 :=
  map (fun p => map (fun row => nth p row 0%Z) rows) (seq 0 m).

(** The (batch, seq, n_classes) tensor of an output held by token
    position, for a batch of [N] rows and two classes. *)
Definition as_tensor (N : nat) (h : Hidden (list Q)) : Tensor :=
  {| shape := [N; length h; 2];
     tdata := concat (map (fun b => concat (map (fun col => nth b col []) h))
                          (seq 0 N)) |}.

End Forward.

(* ================================================================== *)
(** * Proofs *)

(** General facts about [map_opt]. *)
Lemma map_opt_all {A B} (f : A -> option B) (P : A -> B -> Prop) (l : list A) :
  (forall x, In x l -> exists y, f x = Some y /\ P x y) ->
  exists ys, map_opt f l = Some ys /\ Forall2 P l ys.
Proof.
  induction l as [|x xs IH]; intros Hall.
  - exists []. split; [reflexivity | constructor].
  - destruct (Hall x (or_introl eq_refl)) as [y [Hy HP]].
    destruct IH as [ys [Hys HF]].
    { intros z Hz. apply Hall. right. exact Hz. }
    exists (y :: ys). simpl. rewrite Hy, Hys. split; [reflexivity | constructor; assumption].
Qed.

Lemma Forall2_nth' {A B} (P : A -> B -> Prop) l l' (da : A) (db : B) k :
  Forall2 P l l' -> k < length l -> P (nth k l da) (nth k l' db).
Proof.
  intros HF. revert k. induction HF as [|x y xs ys Hxy HF IH]; intros k Hk.
  - simpl in Hk. lia.
  - destruct k as [|k]; simpl; [assumption |]. apply IH. simpl in Hk. lia.
Qed.

Lemma In_skipn' {A} (x : A) n l : In x (skipn n l) -> In x l.
Proof.
  intros H. rewrite <- (firstn_skipn n l). apply in_or_app. right. exact H.
Qed.

Lemma firstn_add {A} a b (l : list A) :
  firstn (a + b) l = firstn a l ++ firstn b (skipn a l).
Proof.
  revert l. induction a as [|a IH]; intros l; [reflexivity |].
  destruct l as [|x l]; simpl.
  - rewrite firstn_nil. reflexivity.
  - rewrite IH. reflexivity.
Qed.

(** Division facts used to count the windows, reduced to linear arithmetic. *)
Ltac div512 a :=
  let q := fresh "q" in let r := fresh "r" in
  let Hq := fresh "Hq" in let Hr := fresh "Hr" in
  pose proof (Nat.div_mod a 512 ltac:(lia)) as Hq;
  pose proof (Nat.mod_upper_bound a 512 ltac:(lia)) as Hr;
  set (q := a / 512) in *; set (r := a mod 512) in *; clearbody q r.

Module EmbeddingFacts.
Import Embedding.

Definition window {A} (x : list A) (i : nat) : list A :=
  firstn 512 (skipn (512 * i) x).

Definition num_windows (L : nat) : nat := Nat.max ((L + 512 - 1) / 512) 1.

Lemma chunk_as_windows {A} (x : list A) :
  chunk x = map (window x) (seq 0 (num_windows (length x))).
Proof. reflexivity. Qed.

Lemma length_window {A} (x : list A) i :
  length (window x i) = Nat.min 512 (length x - 512 * i).
Proof. unfold window. rewrite length_firstn, length_skipn. reflexivity. Qed.

Lemma concat_windows {A} (x : list A) m k :
  concat (map (window x) (seq k m)) = firstn (512 * m) (skipn (512 * k) x).
Proof.
  revert k. induction m as [|m IH]; intros k.
  - rewrite Nat.mul_0_r. reflexivity.
  - cbn [seq map concat]. rewrite IH. unfold window.
    replace (512 * S m) with (512 + 512 * m) by lia.
    rewrite firstn_add, skipn_skipn.
    replace (512 * S k) with (512 + 512 * k) by lia. reflexivity.
Qed.

Lemma num_windows_covers L : L <= 512 * num_windows L.
Proof.
  unfold num_windows. div512 (L + 512 - 1). lia.
Qed.

Lemma concat_chunk {A} (x : list A) : concat (chunk x) = x.
Proof.
  rewrite chunk_as_windows, concat_windows, Nat.mul_0_r, skipn_0.
  apply firstn_all2. apply num_windows_covers.
Qed.

Lemma num_windows_small L : L <= 512 -> num_windows L = 1.
Proof.
  intros HL. unfold num_windows. div512 (L + 512 - 1). lia.
Qed.

Lemma num_windows_pos L : 0 < L -> num_windows L = S ((L - 1) / 512).
Proof.
  intros HL. unfold num_windows. div512 (L + 512 - 1). div512 (L - 1). lia.
Qed.

Lemma chunk_small {A} (x : list A) : length x <= 512 -> chunk x = [x].
Proof.
  intros H. rewrite chunk_as_windows, num_windows_small by exact H.
  cbn [seq map]. unfold window. rewrite Nat.mul_0_r, skipn_0.
  rewrite firstn_all2 by exact H. reflexivity.
Qed.

Lemma chunk_lengths {A} (x : list A) :
  0 < length x ->
  map (@length A) (chunk x)
  = repeat 512 ((length x - 1) / 512)
    ++ [length x - 512 * ((length x - 1) / 512)].
Proof.
  intros HL. rewrite chunk_as_windows, num_windows_pos by exact HL.
  rewrite seq_S, !map_app, map_map. cbn [map plus].
  rewrite length_window.
  assert (Hq : 512 * ((length x - 1) / 512) <= length x - 1
               < 512 * ((length x - 1) / 512) + 512)
    by (div512 (length x - 1); lia).
  rewrite (map_ext_in _ (fun _ => 512)).
  - rewrite map_const, length_seq. f_equal. f_equal. lia.
  - intros i Hi. apply in_seq in Hi. rewrite length_window. lia.
Qed.

Lemma windows_zip (a b c : Batch2) L :
  length a = L -> length b = L -> length c = L ->
  zip3 (chunk a) (chunk b) (chunk c)
  = map (fun i => (window a i, window b i, window c i)) (seq 0 (num_windows L)).
Proof.
  intros Ha Hb Hc. rewrite !chunk_as_windows, Ha, Hb, Hc.
  induction (seq 0 (num_windows L)) as [|i s IH]; simpl; [reflexivity |].
  rewrite IH. reflexivity.
Qed.

Lemma length_concat_Forall2 {A B C} (P : A -> list B -> Prop) (g : A -> list C)
    l hs :
  (forall w h, P w h -> length h = length (g w)) ->
  Forall2 P l hs -> length (concat hs) = length (concat (map g l)).
Proof.
  intros HP HF. induction HF as [|w h l hs Hwh HF IH]; [reflexivity |].
  simpl. rewrite !length_app, IH, (HP w h Hwh). reflexivity.
Qed.

Lemma skipn_concat_prefix {A} n k (hs : list (list A)) :
  (forall i, i < k -> length (nth i hs []) = n) -> k <= length hs ->
  skipn (n * k) (concat hs) = concat (skipn k hs).
Proof.
  revert hs. induction k as [|k IH]; intros hs Hlen Hk.
  - rewrite Nat.mul_0_r. reflexivity.
  - destruct hs as [|h hs]; [simpl in Hk; lia |].
    assert (Hh : length h = n) by exact (Hlen 0 ltac:(lia)).
    cbn [concat skipn]. rewrite skipn_app, skipn_all2 by lia.
    replace (n * S k - length h) with (n * k) by lia.
    apply IH; [| simpl in Hk; lia].
    intros i Hi. exact (Hlen (S i) ltac:(lia)).
Qed.

Lemma skipn_nth {A} k (l : list A) d :
  k < length l -> skipn k l = nth k l d :: skipn (S k) l.
Proof.
  revert l. induction k as [|k IH]; intros [|x l] Hk; simpl in *; try lia.
  - reflexivity.
  - apply IH. lia.
Qed.

Lemma nth_map_seq {B} (F : nat -> B) N k d :
  k < N -> nth k (map F (seq 0 N)) d = F k.
Proof.
  intros Hk. rewrite (nth_indep _ d (F 0)) by (rewrite length_map, length_seq; exact Hk).
  rewrite map_nth, seq_nth by exact Hk. reflexivity.
Qed.

Lemma num_windows_last L k :
  512 * k < L -> L < 512 * k + 512 -> num_windows L = S k.
Proof.
  intros H1 H2. unfold num_windows. div512 (L + 512 - 1).
  assert (q = S k) by lia. rewrite Nat.max_l by lia. assumption.
Qed.

Section Encoder.

Variable V : Type.
Variable vmean : list V -> V.
Variable bert : Batch2 -> Batch2 -> Batch2 -> list (Hidden V).

Lemma length_push_layer (acc : list (list (list V))) (h : Hidden V) :
  length (push_layer acc h) = Nat.min (length acc) (length h).
Proof.
  unfold push_layer, zip_with. rewrite length_map, length_combine. reflexivity.
Qed.

Lemma length_fold_push (rest : list (Hidden V)) acc :
  Forall (fun h => length h = length acc) rest ->
  length (fold_left push_layer rest acc) = length acc.
Proof.
  revert acc. induction rest as [|h rest IH]; intros acc HF; [reflexivity |].
  inversion HF as [|? ? Hh HF']; subst. simpl.
  assert (Hp : length (push_layer acc h) = length acc)
    by (rewrite length_push_layer; lia).
  rewrite IH; [exact Hp |].
  rewrite Hp. exact HF'.
Qed.

Lemma stack_same_shape (ls : list (Hidden V)) sh :
  ls <> [] -> Forall (fun h => shape h = sh) ls -> stack ls = Some ls.
Proof.
  intros Hne HF. destruct ls as [|h0 rest]; [contradiction |].
  inversion HF as [|? ? H0 HF']; subst. simpl.
  replace (forallb _ rest) with true; [reflexivity |].
  symmetry. apply forallb_forall. intros h Hh. rewrite Forall_forall in HF'.
  destruct (list_eq_dec Nat.eq_dec (shape h) (shape h0)) as [|Hn]; [reflexivity |].
  exfalso. apply Hn. rewrite (HF' h Hh). reflexivity.
Qed.

Lemma mean0_length (h0 : Hidden V) rest sh :
  shape h0 = sh -> Forall (fun h => shape h = sh) rest ->
  length (mean0 vmean (h0 :: rest)) = length sh.
Proof.
  intros H0 HF. simpl.
  rewrite length_map, length_fold_push, length_map.
  - rewrite <- H0. unfold shape. rewrite length_map. reflexivity.
  - rewrite length_map. rewrite Forall_forall in *. intros h Hh.
    apply (f_equal (@length nat)) in H0. apply HF in Hh.
    apply (f_equal (@length nat)) in Hh. unfold shape in *.
    rewrite length_map in *. congruence.
Qed.

Lemma pool_ok :
  encoder_keeps_length bert ->
  forall a b c, length a = length b -> length a = length c ->
  exists e, pool vmean (bert a b c) = Some e /\ length e = length a.
Proof.
  intros Henc a b c Hab Hac.
  destruct (Henc a b c Hab Hac) as [Hne [sh [Hsh HF]]].
  unfold pool. rewrite (stack_same_shape _ sh Hne HF). unfold last_layers.
  assert (Hsk : Forall (fun h => shape h = sh)
                  (skipn (length (bert a b c) - 5) (bert a b c))).
  { rewrite Forall_forall in *. intros h Hh. apply HF. eapply In_skipn'. exact Hh. }
  destruct (skipn (length (bert a b c) - 5) (bert a b c)) as [|h0 rest] eqn:E.
  - exfalso. apply (f_equal (@length (Hidden V))) in E.
    rewrite length_skipn in E. destruct (bert a b c); [contradiction |].
    cbn [length] in E. lia.
  - inversion Hsk; subst. eexists. split; [reflexivity |]. rewrite <- Hsh.
    apply mean0_length; [reflexivity | assumption].
Qed.

Lemma chunked_run (a b c : Batch2) L :
  encoder_keeps_length bert ->
  length a = L -> length b = L -> length c = L ->
  exists hs,
    Forall2 (fun w h => chunk_embedding vmean bert w = Some h
                        /\ length h = length (fst (fst w)))
      (zip3 (chunk a) (chunk b) (chunk c)) hs
    /\ get_embedding vmean bert true a b c = Some (concat hs)
    /\ length (concat hs) = L.
Proof.
  intros Henc Ha Hb Hc.
  destruct (map_opt_all (chunk_embedding vmean bert)
              (fun w h => chunk_embedding vmean bert w = Some h
                          /\ length h = length (fst (fst w)))
              (zip3 (chunk a) (chunk b) (chunk c))) as [hs [Hmap HF]].
  { intros w Hw. rewrite (windows_zip a b c L Ha Hb Hc) in Hw.
    apply in_map_iff in Hw. destruct Hw as [i [<- _]].
    destruct (pool_ok Henc (window a i) (window b i) (window c i)) as [e [He Hl]].
    - rewrite !length_window. congruence.
    - rewrite !length_window. congruence.
    - exists e. simpl. rewrite He. split; [reflexivity | split; [reflexivity | exact Hl]]. }
  exists hs. split; [exact HF |]. split.
  - unfold get_embedding. rewrite Hmap.
    destruct hs as [|h hs]; [| reflexivity].
    apply Forall2_length in HF. rewrite (windows_zip a b c L Ha Hb Hc) in HF.
    rewrite length_map, length_seq in HF. unfold num_windows in HF. cbn [length] in HF.
    pose proof (Nat.le_max_r ((L + 512 - 1) / 512) 1). lia.
  - rewrite (length_concat_Forall2 _ (fun w => fst (fst w)) _ _
               (fun w h H => proj2 H) HF).
    rewrite (windows_zip a b c L Ha Hb Hc), map_map.
    rewrite (map_ext _ (window a)) by reflexivity.
    rewrite <- Ha, <- (chunk_as_windows a), concat_chunk. reflexivity.
Qed.

Lemma run_window (a b c : Batch2) L hs k :
  length a = L -> length b = L -> length c = L ->
  Forall2 (fun w h => chunk_embedding vmean bert w = Some h
                      /\ length h = length (fst (fst w)))
    (zip3 (chunk a) (chunk b) (chunk c)) hs ->
  512 * k < L ->
  chunk_embedding vmean bert (window a k, window b k, window c k)
    = Some (nth k hs [])
  /\ firstn 512 (skipn (512 * k) (concat hs)) = nth k hs [].
Proof.
  intros Ha Hb Hc HF Hk.
  rewrite (windows_zip a b c L Ha Hb Hc) in HF.
  pose proof (num_windows_covers L) as Hcov.
  set (N := num_windows L) in *.
  assert (HN : length hs = N)
    by (apply Forall2_length in HF; rewrite length_map, length_seq in HF; lia).
  assert (Hnth : forall i, i < N ->
            chunk_embedding vmean bert (window a i, window b i, window c i)
              = Some (nth i hs [])
            /\ length (nth i hs []) = Nat.min 512 (L - 512 * i)).
  { intros i Hi.
    pose proof (Forall2_nth' _ _ _ ([], [], []) [] i HF) as Hi'.
    rewrite length_map, length_seq, nth_map_seq in Hi' by exact Hi.
    destruct (Hi' Hi) as [He Hl]. split; [exact He |].
    transitivity (length (window a i)); [exact Hl |].
    rewrite length_window, Ha. reflexivity. }
  split; [apply Hnth; lia |].
  rewrite (skipn_concat_prefix 512 k hs).
  2: { intros i Hi. rewrite (proj2 (Hnth i ltac:(lia))). lia. }
  2: lia.
  rewrite (skipn_nth k hs []) by lia. cbn [concat].
  destruct (Nat.lt_ge_cases L (512 * k + 512)) as [Hlast | Hfull].
  - assert (Hs : skipn (S k) hs = []).
    { apply skipn_all2. rewrite HN. unfold N.
      rewrite (num_windows_last L k) by lia. lia. }
    rewrite Hs. cbn [concat]. rewrite app_nil_r. apply firstn_all2.
    rewrite (proj2 (Hnth k ltac:(lia))). lia.
  - rewrite firstn_app, (proj2 (Hnth k ltac:(lia))).
    replace (512 - Nat.min 512 (L - 512 * k)) with 0 by lia.
    rewrite firstn_0, app_nil_r. apply firstn_all2.
    rewrite (proj2 (Hnth k ltac:(lia))). lia.
Qed.

(** C1: for every batch whose token length [L] is at most 512, the chunked
    path ([enable_chunk=True]) returns exactly the embedding of the
    non-chunked path: [torch.split] yields the whole batch as its single
    window and [torch.cat] of one tensor is that tensor. *)
Theorem get_embedding_chunked_short (input_ids attention_mask token_type_ids : Batch2)
    (L : nat) :
  length input_ids = L -> length attention_mask = L -> length token_type_ids = L ->
  L <= 512 ->
  get_embedding vmean bert true input_ids attention_mask token_type_ids
  = get_embedding vmean bert false input_ids attention_mask token_type_ids.
Proof.
  intros Ha Hb Hc HL. unfold get_embedding.
  rewrite (chunk_small input_ids), (chunk_small attention_mask),
    (chunk_small token_type_ids) by lia.
  cbn [zip3 map_opt chunk_embedding].
  rewrite !firstn_all2 by lia.
  destruct (pool vmean (bert input_ids attention_mask token_type_ids)) as [e|];
    [| reflexivity].
  simpl. rewrite app_nil_r. reflexivity.
Qed.

(** C2: for a batch of token length [L > 512], and an encoder that returns
    for every window layers with one row per window position, the chunked
    path cuts each input into consecutive non-overlapping windows of 512
    positions (the last one shorter, of [L - 512 * ((L - 1) / 512)]
    positions), embeds each window and concatenates the results in chunk
    order, giving exactly [L] rows; the non-chunked path gives exactly 512. *)
Theorem get_embedding_row_counts (input_ids attention_mask token_type_ids : Batch2)
    (L : nat) :
  encoder_keeps_length bert ->
  length input_ids = L -> length attention_mask = L -> length token_type_ids = L ->
  512 < L ->
  Forall (fun x : Batch2 =>
            map (@length Column) (chunk x)
            = repeat 512 ((L - 1) / 512) ++ [L - 512 * ((L - 1) / 512)]
            /\ concat (chunk x) = x)
    [input_ids; attention_mask; token_type_ids]
  /\ (exists hs,
        Forall2 (fun w h => chunk_embedding vmean bert w = Some h)
          (zip3 (chunk input_ids) (chunk attention_mask) (chunk token_type_ids)) hs
        /\ get_embedding vmean bert true input_ids attention_mask token_type_ids
           = Some (concat hs)
        /\ length (concat hs) = L)
  /\ (exists e,
        get_embedding vmean bert false input_ids attention_mask token_type_ids
        = Some e
        /\ length e = 512).
Proof.
  intros Henc Ha Hb Hc HL. split; [| split].
  - repeat constructor; rewrite ?chunk_lengths, ?concat_chunk by lia;
      try reflexivity; [rewrite Ha | rewrite Hb | rewrite Hc]; reflexivity.
  - destruct (chunked_run input_ids attention_mask token_type_ids L Henc Ha Hb Hc)
      as [hs [HF [Hget Hlen]]].
    exists hs. split; [| split; assumption].
    eapply Forall2_impl; [| exact HF]. intros w h [Hw _]. exact Hw.
  - destruct (pool_ok Henc (firstn 512 input_ids) (firstn 512 attention_mask)
                (firstn 512 token_type_ids)) as [e [He Hl]].
    + rewrite !length_firstn. congruence.
    + rewrite !length_firstn. congruence.
    + exists e. split; [exact He |]. rewrite Hl, length_firstn. lia.
Qed.

(** C6: in chunked mode there is no mixing across windows: two batches of
    the same length that agree, on all three inputs, at every position of
    window [k] get the same embeddings at every position of window [k],
    whatever they hold in the other windows. *)
Theorem get_embedding_window_local
    (input_ids attention_mask token_type_ids
     input_ids' attention_mask' token_type_ids' : Batch2) (L k : nat) :
  encoder_keeps_length bert ->
  length input_ids = L -> length attention_mask = L -> length token_type_ids = L ->
  length input_ids' = L -> length attention_mask' = L -> length token_type_ids' = L ->
  512 * k < L ->
  window input_ids k = window input_ids' k ->
  window attention_mask k = window attention_mask' k ->
  window token_type_ids k = window token_type_ids' k ->
  exists e e',
    get_embedding vmean bert true input_ids attention_mask token_type_ids = Some e
    /\ get_embedding vmean bert true input_ids' attention_mask' token_type_ids'
       = Some e'
    /\ window e k = window e' k.
Proof.
  intros Henc Ha Hb Hc Ha' Hb' Hc' Hk Hwa Hwb Hwc.
  destruct (chunked_run input_ids attention_mask token_type_ids L Henc Ha Hb Hc)
    as [hs [HF [Hget _]]].
  destruct (chunked_run input_ids' attention_mask' token_type_ids' L Henc Ha' Hb' Hc')
    as [hs' [HF' [Hget' _]]].
  exists (concat hs), (concat hs'). split; [exact Hget |]. split; [exact Hget' |].
  destruct (run_window _ _ _ L hs k Ha Hb Hc HF Hk) as [He Hw].
  destruct (run_window _ _ _ L hs' k Ha' Hb' Hc' HF' Hk) as [He' Hw'].
  unfold window at 1 2. rewrite Hw, Hw'.
  rewrite Hwa, Hwb, Hwc, He' in He. injection He as He. symmetry. exact He.
Qed.

End Encoder.

End EmbeddingFacts.

Module DatasetFacts.
Import Dataset.

Lemma filter_map_swap {A B} (p : B -> bool) (g : A -> B) (l : list A) :
  filter p (map g l) = map g (filter (fun x => p (g x)) l).
Proof.
  induction l as [|x l IH]; simpl; [reflexivity |].
  destruct (p (g x)); simpl; rewrite IH; reflexivity.
Qed.

Lemma map_opt_none {A B} (f : A -> option B) x l :
  In x l -> f x = None -> map_opt f l = None.
Proof.
  induction l as [|y l IH]; intros Hin Hx; [destruct Hin |].
  simpl. destruct Hin as [-> | Hin].
  - rewrite Hx. reflexivity.
  - destruct (f y); [| reflexivity]. rewrite IH by assumption. reflexivity.
Qed.

Lemma map_opt_some {A B} (f : A -> option B) (g : A -> B) l :
  (forall x, In x l -> f x = Some (g x)) -> map_opt f l = Some (map g l).
Proof.
  induction l as [|x l IH]; intros H; [reflexivity |].
  simpl. rewrite (H x (or_introl eq_refl)), IH; [reflexivity |].
  intros y Hy. apply H. right. exact Hy.
Qed.

Lemma combine_map_r {A B} (f : A -> B) (l : list A) :
  combine l (map f l) = map (fun x => (x, f x)) l.
Proof. induction l as [|x l IH]; simpl; [reflexivity | rewrite IH; reflexivity]. Qed.

Lemma group_keys_In ks k : In k (group_keys ks) <-> In k ks.
Proof.
  unfold group_keys. rewrite <- (nodup_In Z.eq_dec ks k).
  split; apply Permutation_in;
    [apply Permutation_sym |]; apply ZSort.Permuted_sort.
Qed.

Lemma group_keys_NoDup ks : NoDup (group_keys ks).
Proof.
  unfold group_keys. eapply Permutation_NoDup;
    [apply ZSort.Permuted_sort | apply NoDup_nodup].
Qed.

(** Selecting by index the rows whose index satisfies [P] selects the rows
    satisfying [P], in order. *)
Lemma select_filter (rs : list Row) (P : Row -> bool) :
  map (fun j => nth j rs dummy_row)
      (filter (fun j => P (nth j rs dummy_row)) (seq 0 (length rs)))
  = filter P rs.
Proof.
  induction rs as [|r rs IH]; [reflexivity |].
  cbn [length]. rewrite <- cons_seq, <- seq_shift.
  cbn [filter nth]. rewrite filter_map_swap.
  cbn [nth]. destruct (P r); cbn [map]; rewrite map_map; cbn [nth]; rewrite IH;
    reflexivity.
Qed.

Lemma loc_ok (f : Frame) labels :
  Forall (fun j => j < length (rows f)) labels ->
  loc f labels = Some {| columns := columns f;
                         rows := map (fun j => nth j (rows f) dummy_row) labels |}.
Proof.
  intros HF. unfold loc.
  rewrite (map_opt_some _ (fun j => nth j (rows f) dummy_row)); [reflexivity |].
  intros j Hj. rewrite Forall_forall in HF. apply nth_error_nth'. apply HF, Hj.
Qed.

Lemma nth_map_in {A B} (f : A -> B) l d d' n :
  n < length l -> nth n (map f l) d' = f (nth n l d).
Proof.
  revert n. induction l as [|x l IH]; intros n Hn; simpl in Hn; [lia |].
  destruct n; simpl; [reflexivity | apply IH; lia].
Qed.

Lemma group_indices_nth rs i :
  i < length (group_indices rs) ->
  exists k, In k (map paper_id rs)
    /\ nth i (group_indices rs) []
       = filter (fun j => Z.eqb (paper_id (nth j rs dummy_row)) k)
                (seq 0 (length rs)).
Proof.
  intros Hi. unfold group_indices in *. rewrite length_map in Hi.
  exists (nth i (group_keys (map paper_id rs)) 0%Z). split.
  - apply group_keys_In. apply nth_In. exact Hi.
  - rewrite nth_map_in with (d := 0%Z) by exact Hi. reflexivity.
Qed.

Lemma group_rows rs i :
  i < length (group_indices rs) ->
  exists k, In k (map paper_id rs)
    /\ Forall (fun j => j < length rs) (nth i (group_indices rs) [])
    /\ map (fun j => nth j rs dummy_row) (nth i (group_indices rs) [])
       = filter (fun r => Z.eqb (paper_id r) k) rs.
Proof.
  intros Hi. destruct (group_indices_nth rs i Hi) as [k [Hk Heq]].
  exists k. rewrite Heq. split; [exact Hk |]. split.
  - apply Forall_forall. intros j Hj. apply filter_In in Hj.
    destruct Hj as [Hj _]. apply in_seq in Hj. lia.
  - apply (select_filter rs (fun r => Z.eqb (paper_id r) k)).
Qed.

Lemma concat_filter_NoDup (h : nat -> Z) (s : list nat) keys :
  NoDup keys -> NoDup s ->
  NoDup (concat (map (fun k => filter (fun j => Z.eqb (h j) k) s) keys)).
Proof.
  intros Hk Hs. induction Hk as [|k keys Hnot Hk IH]; [constructor |].
  cbn [map concat]. apply NoDup_app; [apply NoDup_filter, Hs | exact IH |].
  intros a Ha Hb. apply filter_In in Ha. destruct Ha as [_ Ha].
  apply in_concat in Hb. destruct Hb as [l [Hl Hb]].
  apply in_map_iff in Hl. destruct Hl as [k' [<- Hk']].
  apply filter_In in Hb. destruct Hb as [_ Hb].
  apply Z.eqb_eq in Ha, Hb. subst. contradiction.
Qed.

Lemma In_concat_group_indices rs j :
  In j (concat (group_indices rs)) <-> j < length rs.
Proof.
  unfold group_indices. split; intros H.
  - apply in_concat in H. destruct H as [l [Hl Hj]].
    apply in_map_iff in Hl. destruct Hl as [k [<- _]].
    apply filter_In in Hj. destruct Hj as [Hj _]. apply in_seq in Hj. lia.
  - apply in_concat. set (k := paper_id (nth j rs dummy_row)).
    exists (filter (fun i => Z.eqb (paper_id (nth i rs dummy_row)) k)
              (seq 0 (length rs))).
    split.
    + apply (in_map (fun k => filter (fun i => Z.eqb (paper_id (nth i rs dummy_row)) k)
                                     (seq 0 (length rs)))).
      apply group_keys_In. apply in_map. apply nth_In. exact H.
    + apply filter_In. split; [apply in_seq; lia | apply Z.eqb_refl].
Qed.

Lemma SuMM_init_ok f b :
  has_col f "paper_id" = true ->
  SuMM_init f b = Some {| data := f; process_paper_level := b;
                          papers_dict := group_indices (rows f) |}.
Proof. intros H. unfold SuMM_init. rewrite H. reflexivity. Qed.

Lemma SuMM_init_inv f b ds :
  SuMM_init f b = Some ds ->
  has_col f "paper_id" = true
  /\ ds = {| data := f; process_paper_level := b;
             papers_dict := group_indices (rows f) |}.
Proof.
  unfold SuMM_init. destruct (has_col f "paper_id"); intros H; [| discriminate].
  injection H as <-. split; reflexivity.
Qed.

Lemma filter_nonempty (p : Row -> bool) (rs : list Row) k :
  In k (map paper_id rs) -> (forall r, paper_id r = k -> p r = true) ->
  filter p rs <> [].
Proof.
  intros Hk Hp. apply in_map_iff in Hk. destruct Hk as [r [Hr Hin]].
  intros Hnil. assert (Hr' : In r (filter p rs))
    by (apply filter_In; split; [exact Hin | apply Hp; exact Hr]).
  rewrite Hnil in Hr'. destruct Hr'.
Qed.

Section Tokenizer.

Variable tokenizer : String.string -> bool -> Encoding.

(** The encoding of a sentence by [combine_inputs] (no special tokens). *)
Definition sentence_encoding (r : Row) : Encoding :=
  tokenizer (match text r with Some t => t | None => EmptyString end) false.

Lemma combine_inputs_ok (g : Frame) :
  has_col g "text" = true -> has_col g "in_summary" = true ->
  Forall (fun r => text r <> None) (rows g) -> rows g <> [] ->
  exists k0, In k0 (map paper_id (rows g))
    /\ combine_inputs tokenizer g
       = Some (aggregate (map (fun r => label_row r (sentence_encoding r))
                             (filter (fun r => Z.eqb (paper_id r) k0) (rows g)))).
Proof.
  intros Ht Hl HF Hne. unfold combine_inputs. rewrite Ht, Hl. cbn [negb].
  rewrite (map_opt_some _ sentence_encoding).
  2: { intros r Hr. rewrite Forall_forall in HF. specialize (HF r Hr).
       unfold sentence_encoding. destruct (text r); [reflexivity | congruence]. }
  rewrite combine_map_r, !map_map. cbn [fst snd].
  change (map (fun x => paper_id x) (rows g)) with (map paper_id (rows g)).
  destruct (group_keys (map paper_id (rows g))) as [|k0 ks] eqn:E.
  - exfalso. destruct (rows g) as [|r rs] eqn:Er; [contradiction |].
    assert (Hin : In (paper_id r) (group_keys (map paper_id (r :: rs))))
      by (apply group_keys_In; left; reflexivity).
    rewrite E in Hin. destruct Hin.
  - exists k0. split.
    + assert (Hin : In k0 (group_keys (map paper_id (rows g))))
        by (rewrite E; left; reflexivity).
      exact (proj1 (group_keys_In _ _) Hin).
    + rewrite filter_map_swap, map_map. reflexivity.
Qed.

Lemma filter_all {A} (p : A -> bool) l :
  (forall x, In x l -> p x = true) -> filter p l = l.
Proof.
  induction l as [|x l IH]; intros H; [reflexivity |]. simpl.
  rewrite (H x (or_introl eq_refl)), IH; [reflexivity |].
  intros y Hy. apply H. right. exact Hy.
Qed.

(** The rows and the example of paper [i]. *)
Lemma getitem_paper_sentences (f : Frame) (ds : SuMM) (i : nat) :
  SuMM_init f true = Some ds ->
  has_col f "text" = true -> has_col f "in_summary" = true ->
  Forall (fun r => text r <> None) (rows f) ->
  i < length (papers_dict ds) ->
  exists k, In k (map paper_id (rows f))
   /\ map (fun j => nth j (rows f) dummy_row) (nth i (papers_dict ds) [])
      = filter (fun r => Z.eqb (paper_id r) k) (rows f)
   /\ let sentences := filter (fun r => Z.eqb (paper_id r) k) (rows f) in
      getitem tokenizer ds i
      = Some {| input_ids :=
                  concat (map (fun r => enc_input_ids (sentence_encoding r)) sentences);
                attention_mask :=
                  concat (map (fun r => enc_attention_mask (sentence_encoding r)) sentences);
                token_type_ids :=
                  concat (map (fun r => enc_token_type_ids (sentence_encoding r)) sentences);
                targets :=
                  concat (map (fun r => repeat (cell_val (in_summary r))
                                          (length (enc_input_ids (sentence_encoding r))))
                              sentences) |}.
Proof.
  intros Hinit Ht Hl HF Hi. apply SuMM_init_inv in Hinit. destruct Hinit as [_ ->].
  cbn [papers_dict] in Hi.
  destruct (group_rows (rows f) i Hi) as [k [Hk [Hlt Hmap]]].
  exists k. split; [exact Hk |]. split; [exact Hmap |]. cbv zeta.
  unfold getitem, getitem_paper. cbn [process_paper_level papers_dict data].
  rewrite (nth_error_nth' _ [] Hi), (loc_ok f _ Hlt), Hmap.
  set (sentences := filter (fun r => Z.eqb (paper_id r) k) (rows f)).
  destruct (combine_inputs_ok {| columns := columns f; rows := sentences |})
    as [k0 [Hk0 Hc]]; cbn [rows] in *.
  - exact Ht.
  - exact Hl.
  - apply Forall_forall. intros r Hr. apply filter_In in Hr.
    rewrite Forall_forall in HF. apply HF, Hr.
  - apply (filter_nonempty _ _ k Hk). intros r Hr. apply Z.eqb_eq. exact Hr.
  - rewrite Hc.
    assert (Hk0k : k0 = k).
    { apply in_map_iff in Hk0. destruct Hk0 as [r [<- Hr]].
      apply filter_In in Hr. destruct Hr as [_ Hr]. apply Z.eqb_eq. exact Hr. }
    subst k0.
    rewrite (filter_all _ sentences).
    2: { intros r Hr. apply filter_In in Hr. apply Hr. }
    unfold aggregate. cbn [lt_input_ids lt_attention_mask lt_token_type_ids lt_targets].
    rewrite !map_map, concat_map, map_map.
    unfold label_row. cbn [lt_input_ids lt_attention_mask lt_token_type_ids lt_targets].
    rewrite (map_ext (fun x => map cell_val (repeat (in_summary x) _))
                     (fun x => repeat (cell_val (in_summary x))
                                 (length (enc_input_ids (sentence_encoding x)))))
      by (intros x; apply map_repeat).
    reflexivity.
Qed.

(** C3: in paper-level mode, the example of paper [i] is the concatenation,
    in the source order of its sentences, of the per-sentence encodings
    (without special tokens), and each sentence's label fills exactly the
    positions of that sentence's tokens. *)
Theorem getitem_paper_concat (f : Frame) (ds : SuMM) (i : nat) :
  SuMM_init f true = Some ds ->
  has_col f "text" = true -> has_col f "in_summary" = true ->
  Forall (fun r => text r <> None) (rows f) ->
  i < length (papers_dict ds) ->
  exists k, In k (map paper_id (rows f))
   /\ let sentences := filter (fun r => Z.eqb (paper_id r) k) (rows f) in
      getitem tokenizer ds i
      = Some {| input_ids :=
                  concat (map (fun r => enc_input_ids (sentence_encoding r)) sentences);
                attention_mask :=
                  concat (map (fun r => enc_attention_mask (sentence_encoding r)) sentences);
                token_type_ids :=
                  concat (map (fun r => enc_token_type_ids (sentence_encoding r)) sentences);
                targets :=
                  concat (map (fun r => repeat (cell_val (in_summary r))
                                          (length (enc_input_ids (sentence_encoding r))))
                              sentences) |}.
Proof.
  intros Hinit Ht Hl HF Hi.
  destruct (getitem_paper_sentences f ds i Hinit Ht Hl HF Hi) as [k [Hk [_ Hget]]].
  exists k. split; assumption.
Qed.

(** C10: [combine_inputs] returns the aggregate of the first paper-id group
    only, which is the whole of its input exactly when all its rows share
    one paper id; every paper-level [__getitem__] gives it such rows, since
    [papers_dict] partitions the row indices into non-empty groups of one
    paper id each. *)
Theorem combine_inputs_single_paper (f : Frame) (ds : SuMM) :
  SuMM_init f true = Some ds ->
  (forall g : Frame,
     has_col g "text" = true -> has_col g "in_summary" = true ->
     Forall (fun r => text r <> None) (rows g) -> rows g <> [] ->
     exists k0,
       combine_inputs tokenizer g
       = Some (aggregate (map (fun r => label_row r (sentence_encoding r))
                              (filter (fun r => Z.eqb (paper_id r) k0) (rows g))))
       /\ (filter (fun r => Z.eqb (paper_id r) k0) (rows g) = rows g
           <-> forall r r', In r (rows g) -> In r' (rows g) ->
                            paper_id r = paper_id r'))
  /\ NoDup (concat (papers_dict ds))
  /\ (forall j, In j (concat (papers_dict ds)) <-> j < length (rows f))
  /\ (forall i, i < length (papers_dict ds) ->
        exists paper, loc f (nth i (papers_dict ds) []) = Some paper
          /\ columns paper = columns f
          /\ rows paper <> []
          /\ forall r r', In r (rows paper) -> In r' (rows paper) ->
                          paper_id r = paper_id r').
Proof.
  intros Hinit. apply SuMM_init_inv in Hinit. destruct Hinit as [_ ->].
  cbn [papers_dict]. split; [| split; [| split]].
  - intros g Ht Hl HF Hne.
    destruct (combine_inputs_ok g Ht Hl HF Hne) as [k0 [Hk0 Hc]].
    exists k0. split; [exact Hc |]. split.
    + intros Heq r r' Hr Hr'. rewrite <- Heq in Hr, Hr'.
      apply filter_In in Hr, Hr'. destruct Hr as [_ Hr], Hr' as [_ Hr'].
      apply Z.eqb_eq in Hr, Hr'. congruence.
    + intros Hall. apply filter_all. intros r Hr.
      apply in_map_iff in Hk0. destruct Hk0 as [r0 [<- Hr0]].
      apply Z.eqb_eq. apply Hall; assumption.
  - unfold group_indices. apply concat_filter_NoDup;
      [apply group_keys_NoDup | apply seq_NoDup].
  - intros j. apply In_concat_group_indices.
  - intros i Hi. destruct (group_rows (rows f) i Hi) as [k [Hk [Hlt Hmap]]].
    rewrite (loc_ok f _ Hlt), Hmap.
    eexists. split; [reflexivity |]. cbn [rows columns].
    split; [reflexivity |]. split.
    + apply (filter_nonempty _ _ k Hk). intros r Hr. apply Z.eqb_eq. exact Hr.
    + intros r r' Hr Hr'. apply filter_In in Hr, Hr'.
      destruct Hr as [_ Hr], Hr' as [_ Hr']. apply Z.eqb_eq in Hr, Hr'. congruence.
Qed.

(** C7 (as the code does it): the constructor checks nothing but the
    [paper_id] column, so it accepts data whose records miss [text] or
    [in_summary]; a record without a text or without an [in_summary]
    column only makes [__getitem__] fail when it is accessed, in either
    mode; and a NaN [in_summary] is not rejected at all: in sentence mode
    it is read as truthy and every token gets the positive label, in
    paper-level mode its sentence's tokens keep NaN as their target. *)
Theorem SuMM_init_accepts_malformed (f : Frame) (paper_level : bool) :
  has_col f "paper_id" = true ->
  (exists ds, SuMM_init f paper_level = Some ds /\ data ds = f)
  /\ (forall ds index r,
        SuMM_init f paper_level = Some ds ->
        nth_error (rows f) index = Some r ->
        has_col f "text" = false \/ text r = None
        \/ has_col f "in_summary" = false ->
        (paper_level = false -> getitem tokenizer ds index = None)
        /\ (paper_level = true -> forall i, In index (nth i (papers_dict ds) []) ->
              getitem tokenizer ds i = None))
  /\ (forall ds index r t,
        SuMM_init f paper_level = Some ds -> paper_level = false ->
        nth_error (rows f) index = Some r ->
        has_col f "text" = true -> text r = Some t ->
        has_col f "in_summary" = true -> in_summary r = None ->
        exists ex, getitem tokenizer ds index = Some ex
          /\ targets ex = repeat (FNum 1) (length (input_ids ex)))
  /\ (forall ds i index r,
        SuMM_init f paper_level = Some ds -> paper_level = true ->
        has_col f "text" = true -> has_col f "in_summary" = true ->
        Forall (fun r => text r <> None) (rows f) ->
        In index (nth i (papers_dict ds) []) ->
        nth_error (rows f) index = Some r -> in_summary r = None ->
        exists ex pre post, getitem tokenizer ds i = Some ex
          /\ targets ex
             = pre ++ repeat FNaN (length (enc_input_ids (sentence_encoding r))) ++ post).
Proof.
  intros Hp. split; [| split; [| split]].
  - eexists. split; [apply SuMM_init_ok, Hp | reflexivity].
  - intros ds index r Hinit Hr Hbad. apply SuMM_init_inv in Hinit.
    destruct Hinit as [_ ->]. split.
    + intros ->. unfold getitem, getitem_sentence.
      cbn [process_paper_level data]. rewrite Hr.
      destruct Hbad as [Ht | [Ht | Hl]].
      * rewrite Ht. reflexivity.
      * destruct (has_col f "text"); [| reflexivity]. cbn [negb]. rewrite Ht. reflexivity.
      * destruct (has_col f "text"); [| reflexivity]. cbn [negb].
        destruct (text r); [| reflexivity]. rewrite Hl. reflexivity.
    + intros -> i Hin. cbn [papers_dict] in Hin.
      assert (Hi : i < length (group_indices (rows f))).
      { destruct (Nat.lt_ge_cases i (length (group_indices (rows f)))) as [H | H];
          [exact H |]. rewrite nth_overflow in Hin by exact H. destruct Hin. }
      destruct (group_rows (rows f) i Hi) as [k [_ [Hlt _]]].
      unfold getitem, getitem_paper. cbn [process_paper_level papers_dict data].
      rewrite (nth_error_nth' _ [] Hi), (loc_ok f _ Hlt).
      assert (Hrin : In r (map (fun j => nth j (rows f) dummy_row)
                              (nth i (group_indices (rows f)) []))).
      { apply in_map_iff. exists index. split; [| exact Hin].
        apply nth_error_nth with (d := dummy_row) in Hr. exact Hr. }
      unfold combine_inputs.
      change (has_col {| columns := columns f; rows := ?x |}) with (has_col f).
      cbn [rows].
      destruct Hbad as [Ht | [Ht | Hl]].
      * rewrite Ht. reflexivity.
      * destruct (has_col f "text"); [| reflexivity]. cbn [negb].
        rewrite (map_opt_none _ r _ Hrin) by (rewrite Ht; reflexivity). reflexivity.
      * destruct (has_col f "text"); [| reflexivity]. cbn [negb].
        destruct (map_opt _ _); [| reflexivity]. rewrite Hl. reflexivity.
  - intros ds index r t Hinit Hpl Hr Ht Htr Hl Hs. subst paper_level.
    apply SuMM_init_inv in Hinit. destruct Hinit as [_ ->].
    unfold getitem, getitem_sentence. cbn [process_paper_level data].
    rewrite Hr, Ht, Htr, Hl, Hs. cbn [negb truthy].
    eexists. split; [reflexivity |]. reflexivity.
  - intros ds i index r Hinit Hpl Ht Hl HF Hin Hr Hs. subst paper_level.
    assert (Hi : i < length (papers_dict ds)).
    { destruct (Nat.lt_ge_cases i (length (papers_dict ds))) as [H | H]; [exact H |].
      rewrite nth_overflow in Hin by exact H. destruct Hin. }
    destruct (getitem_paper_sentences f ds i Hinit Ht Hl HF Hi) as [k [_ [Hmap Hget]]].
    cbv zeta in Hget.
    set (sentences := filter (fun r => Z.eqb (paper_id r) k) (rows f)) in *.
    assert (Hrin : In r sentences).
    { rewrite <- Hmap. apply in_map_iff. exists index. split; [| exact Hin].
      apply nth_error_nth with (d := dummy_row) in Hr. exact Hr. }
    apply in_split in Hrin. destruct Hrin as [s1 [s2 Hsplit]].
    eexists. exists (concat (map (fun r => repeat (cell_val (in_summary r))
                                      (length (enc_input_ids (sentence_encoding r)))) s1)).
    exists (concat (map (fun r => repeat (cell_val (in_summary r))
                                      (length (enc_input_ids (sentence_encoding r)))) s2)).
    split; [exact Hget |]. cbn [targets].
    rewrite Hsplit, map_app, concat_app. cbn [map concat]. rewrite Hs. reflexivity.
Qed.

End Tokenizer.

End DatasetFacts.

Module CollateFacts.
Import Dataset Collate.

(** Integers of magnitude at most [2^24] are float32 values. *)
Lemma f32_of_Z_small z : (Z.abs z <= 2 ^ 24)%Z -> f32_of_Z z = z.
Proof.
  intros Hz. destruct (Z.eq_dec (Z.abs z) (2 ^ 24)) as [He | Hne].
  - destruct (Z.abs_spec z) as [[_ Ha] | [_ Ha]]; rewrite Ha in He.
    + subst z. vm_compute. reflexivity.
    + assert (z = - 2 ^ 24)%Z as -> by lia. vm_compute. reflexivity.
  - unfold f32_of_Z. cbv zeta.
    destruct (Z.eq_dec z 0) as [-> | Hnz]; [reflexivity |].
    assert (Hl : (Z.log2 (Z.abs z) < 24)%Z).
    { apply Z.log2_lt_pow2; lia. }
    replace (Z.log2 (Z.abs z) - 23 <=? 0)%Z with true by (symmetry; apply Z.leb_le; lia).
    reflexivity.
Qed.

Lemma to_int32_small z : (Z.abs z <= 2 ^ 24)%Z -> to_int32 z = z.
Proof.
  intros Hz. unfold to_int32.
  replace (- 2 ^ 31 <=? z)%Z with true by (symmetry; apply Z.leb_le; lia).
  replace (z <? 2 ^ 31)%Z with true by (symmetry; apply Z.ltb_lt; lia).
  reflexivity.
Qed.

Lemma Forall2_map_self {A B} (P : A -> B -> Prop) (h : A -> B) l :
  (forall x, In x l -> P x (h x)) -> Forall2 P l (map h l).
Proof.
  induction l as [|x l IH]; intros H; constructor.
  - apply H. left. reflexivity.
  - apply IH. intros y Hy. apply H. right. exact Hy.
Qed.

Lemma Forall2_map_r {A B C} (P : A -> C -> Prop) (h : B -> C) l l' :
  Forall2 (fun x y => P x (h y)) l l' -> Forall2 P l (map h l').
Proof. induction 1; constructor; assumption. Qed.

Lemma Forall2_Forall_r {A B} (P : A -> B -> Prop) (Q : B -> Prop) l l' :
  Forall2 P l l' -> (forall x y, In x l -> P x y -> Q y) -> Forall Q l'.
Proof.
  induction 1 as [|x y xs ys Hxy HF IH]; intros H; constructor.
  - apply (H x); [left; reflexivity | exact Hxy].
  - apply IH. intros a b Ha. apply H. right. exact Ha.
Qed.

Lemma list_max_In (l : list nat) x : In x l -> x <= list_max l.
Proof.
  intros Hx. pose proof (proj1 (list_max_le l (list_max l)) (le_n _)) as HF.
  rewrite Forall_forall in HF. apply HF, Hx.
Qed.

Lemma pad_fits {A B} (zero : B) (conv : A -> B) maximum (t : list A) :
  length t <= maximum ->
  pad zero conv maximum t = Some (map conv t ++ repeat zero (maximum - length t)).
Proof.
  intros H. unfold pad. apply Nat.leb_le in H. rewrite H. reflexivity.
Qed.

(** Values a float32 buffer holds exactly. *)
Definition small_ids (l : list Z) : Prop := Forall (fun z => (Z.abs z <= 2 ^ 24)%Z) l.

Lemma pad_int_small maximum (t : list Z) :
  small_ids t -> map to_int32 (map f32_of_Z t ++ repeat 0%Z (maximum - length t))
                 = t ++ repeat 0%Z (maximum - length t).
Proof.
  intros Hs. rewrite map_app, map_map, map_repeat.
  f_equal. rewrite <- (map_id t) at 2. apply map_ext_in. intros z Hz.
  unfold small_ids in Hs. rewrite Forall_forall in Hs.
  rewrite f32_of_Z_small by (apply Hs, Hz). apply to_int32_small, Hs, Hz.
Qed.

Lemma collate_nonempty (batch : list Example) :
  batch <> [] ->
  collate batch =
    (let maximum := list_max (map (fun item => length (input_ids item)) batch) in
     match map_opt (fun d => pad_int maximum (input_ids d)) batch,
           map_opt (fun d => pad_int maximum (attention_mask d)) batch,
           map_opt (fun d => pad_float maximum (targets d)) batch with
     | Some input_ids_batch, Some attention_mask_batch, Some targets_batch =>
         Some {| b_input_ids := map (map to_int32) input_ids_batch;
                 b_input_ids_dtype := Int32;
                 b_attention_mask := map (map to_int32) attention_mask_batch;
                 b_attention_mask_dtype := Int32;
                 b_token_type_ids := repeat (repeat 0%Z maximum) (length batch);
                 b_token_type_ids_dtype := Int32;
                 b_targets := targets_batch;
                 b_targets_dtype := Float32 |}
     | _, _, _ => None
     end).
Proof. intros H. destruct batch; [congruence | reflexivity]. Qed.

(** C4: for a non-empty batch of tokenized examples (as many
    attention-mask entries and targets as token ids, as both modes of
    [__getitem__] build them; ids taken from the tokenizer's vocabulary and
    mask bits, so of magnitude at most [2^24] and held exactly by the
    float32 padding buffer), [collate] returns N rows of [max l_i] entries
    in each field: each row is the example's values followed by zeros,
    [token_type_ids] is a fresh all-zero N x max block, the three id
    fields are int32 and the targets float32. *)
Theorem collate_shape_and_padding (batch : list Example) :
  batch <> [] ->
  Forall (fun e => length (attention_mask e) = length (input_ids e)
                   /\ length (targets e) = length (input_ids e)
                   /\ small_ids (input_ids e) /\ small_ids (attention_mask e)) batch ->
  let maximum := list_max (map (fun e => length (input_ids e)) batch) in
  exists out, collate batch = Some out
   /\ Forall2 (fun e row => row = input_ids e ++ repeat 0%Z (maximum - length (input_ids e)))
        batch (b_input_ids out)
   /\ Forall2 (fun e row => row = attention_mask e ++ repeat 0%Z (maximum - length (input_ids e)))
        batch (b_attention_mask out)
   /\ Forall2 (fun e row => row = targets e ++ repeat (FNum 0) (maximum - length (input_ids e)))
        batch (b_targets out)
   /\ b_token_type_ids out = repeat (repeat 0%Z maximum) (length batch)
   /\ length (b_input_ids out) = length batch
   /\ length (b_attention_mask out) = length batch
   /\ length (b_targets out) = length batch
   /\ Forall (fun row => length row = maximum) (b_input_ids out)
   /\ Forall (fun row => length row = maximum) (b_attention_mask out)
   /\ Forall (fun row => length row = maximum) (b_targets out)
   /\ b_input_ids_dtype out = Int32 /\ b_attention_mask_dtype out = Int32
   /\ b_token_type_ids_dtype out = Int32 /\ b_targets_dtype out = Float32.
Proof.
  intros Hne Hall. rewrite Forall_forall in Hall.
  rewrite (collate_nonempty batch Hne). cbv zeta.
  set (maximum := list_max (map (fun e => length (input_ids e)) batch)).
  assert (Hle : forall e, In e batch -> length (input_ids e) <= maximum).
  { intros e He. apply list_max_In. apply (in_map (fun e => length (input_ids e))), He. }
  rewrite (DatasetFacts.map_opt_some _
             (fun d => map f32_of_Z (input_ids d) ++ repeat 0%Z (maximum - length (input_ids d))))
    by (intros d Hd; apply pad_fits, Hle, Hd).
  rewrite (DatasetFacts.map_opt_some _
             (fun d => map f32_of_Z (attention_mask d)
                       ++ repeat 0%Z (maximum - length (input_ids d))))
    by (intros d Hd; destruct (Hall d Hd) as [Hm _]; rewrite <- Hm;
        apply pad_fits; rewrite Hm; apply Hle, Hd).
  rewrite (DatasetFacts.map_opt_some _
             (fun d => map (fun v => v) (targets d)
                       ++ repeat (FNum 0) (maximum - length (input_ids d))))
    by (intros d Hd; destruct (Hall d Hd) as [_ [Ht _]]; rewrite <- Ht;
        apply pad_fits; rewrite Ht; apply Hle, Hd).
  eexists. split; [reflexivity |]. cbn [b_input_ids b_attention_mask b_targets b_token_type_ids].
  rewrite !map_map.
  assert (Hids : Forall2 (fun e row => row = input_ids e ++ repeat 0%Z (maximum - length (input_ids e)))
    batch (map (fun x => map to_int32 (map f32_of_Z (input_ids x)
                         ++ repeat 0%Z (maximum - length (input_ids x)))) batch)).
  { apply Forall2_map_self. intros e He. destruct (Hall e He) as [_ [_ [Hs _]]].
    cbv beta. rewrite pad_int_small by exact Hs. reflexivity. }
  assert (Hmask : Forall2 (fun e row => row = attention_mask e
                                           ++ repeat 0%Z (maximum - length (input_ids e)))
    batch (map (fun x => map to_int32 (map f32_of_Z (attention_mask x)
                         ++ repeat 0%Z (maximum - length (input_ids x)))) batch)).
  { apply Forall2_map_self. intros e He. destruct (Hall e He) as [Hm [_ [_ Hs]]].
    cbv beta. rewrite <- Hm, pad_int_small by exact Hs. reflexivity. }
  assert (Htg : Forall2 (fun e row => row = targets e ++ repeat (FNum 0) (maximum - length (input_ids e)))
    batch (map (fun d => map (fun v => v) (targets d)
                         ++ repeat (FNum 0) (maximum - length (input_ids d))) batch)).
  { apply Forall2_map_self. intros e He. rewrite map_id. reflexivity. }
  split; [exact Hids |]. split; [exact Hmask |]. split; [exact Htg |].
  split; [reflexivity |].
  rewrite !length_map. split; [reflexivity |]. split; [reflexivity |]. split; [reflexivity |].
  split; [| split; [| split]].
  - apply (Forall2_Forall_r _ _ _ _ Hids). intros e row He ->.
    rewrite length_app, repeat_length. specialize (Hle e He). lia.
  - apply (Forall2_Forall_r _ _ _ _ Hmask). intros e row He ->.
    destruct (Hall e He) as [Hm _].
    rewrite length_app, repeat_length. specialize (Hle e He). lia.
  - apply (Forall2_Forall_r _ _ _ _ Htg). intros e row He ->.
    destruct (Hall e He) as [_ [Ht _]].
    rewrite length_app, repeat_length. specialize (Hle e He). lia.
  - repeat split.
Qed.

End CollateFacts.

Module StepsFacts.
Import Dataset Collate Steps.

Lemma concat_map_map {A B} (g : A -> B) (ls : list (list A)) :
  concat (map (map g) ls) = map g (concat ls).
Proof. rewrite concat_map. reflexivity. Qed.

Lemma flat_map_map {A B C} (g : A -> B) (h : B -> list C) l :
  flat_map h (map g l) = flat_map (fun x => h (g x)) l.
Proof. induction l as [|x l IH]; simpl; [reflexivity | rewrite IH; reflexivity]. Qed.

Lemma expand_label (b : bool) :
  expand_val (cell_val (Some b)) = if b then [1; 0]%Q else [0; 1]%Q.
Proof. destruct b; reflexivity. Qed.

(** C5: boolean labels (as [__getitem__] stores them, 1.0 or 0.0) are
    expanded to [1,0] for 1 and [0,1] for 0, one 2-vector per label in
    order, and the argmax of the expanded vector gives the label back. *)
Theorem expand_targets_roundtrip (labels : list (list bool)) :
  concat labels <> [] ->
  (exists t, expand_targets (map (map (fun b => cell_val (Some b))) labels) = Some t
     /\ shape t = [length (concat labels); 2]
     /\ tdata t = flat_map (fun b : bool => if b then [1; 0]%Q else [0; 1]%Q) (concat labels))
  /\ (forall b : bool, label_of_expanded (expand_val (cell_val (Some b))) = b).
Proof.
  intros Hne. split.
  - unfold expand_targets. rewrite concat_map_map.
    destruct (concat labels) as [|b bs] eqn:E; [congruence |].
    eexists. split; [reflexivity |]. split.
    + cbn [shape]. rewrite length_map. reflexivity.
    + cbn [tdata]. rewrite flat_map_map. apply flat_map_ext. exact expand_label.
  - intros b. rewrite expand_label. destruct b; reflexivity.
Qed.

(** The element a target value is tested against by [targets.bool()]. *)
Definition is_zero (v : fval) : Prop := exists q, v = FNum q /\ (q == 0)%Q.

(** C9: [expand_targets] reads each target through [bool()]: a value is
    expanded to [0,1] exactly when it is zero, and to [1,0] otherwise
    (0.5, -1.0, NaN and infinities included). *)
Theorem expand_targets_truthiness :
  (forall v, (expand_val v = [0; 1]%Q <-> is_zero v)
             /\ (expand_val v = [1; 0]%Q <-> ~ is_zero v))
  /\ (forall targets, expand_targets targets =
        match concat targets with
        | [] => None
        | vals => Some {| shape := [length vals; 2]; tdata := flat_map expand_val vals |}
        end)
  /\ expand_val (FNum (1 # 2)) = [1; 0]%Q
  /\ expand_val (FNum (-1)) = [1; 0]%Q.
Proof.
  split; [| split; [| split; reflexivity]].
  2: { intros ts. unfold expand_targets. destruct (concat ts); reflexivity. }
  intros v. unfold expand_val, to_bool, is_zero. destruct v as [q | b |].
  - destruct (Qeq_bool q 0) eqn:E; cbn [negb].
    + apply Qeq_bool_iff in E. split; split.
      * intros _. exists q. split; [reflexivity | exact E].
      * reflexivity.
      * intros H. discriminate H.
      * intros H. exfalso. apply H. exists q. split; [reflexivity | exact E].
    + split; split.
      * intros H. discriminate H.
      * intros [q' [Hq Hz]]. injection Hq as <-. apply Qeq_bool_iff in Hz. congruence.
      * intros _ [q' [Hq Hz]]. injection Hq as <-. apply Qeq_bool_iff in Hz. congruence.
      * reflexivity.
  - split; split.
    + intros H. discriminate H.
    + intros [q [Hq _]]. discriminate Hq.
    + intros _ [q [Hq _]]. discriminate Hq.
    + reflexivity.
  - split; split.
    + intros H. discriminate H.
    + intros [q [Hq _]]. discriminate Hq.
    + intros _ [q [Hq _]]. discriminate Hq.
    + reflexivity.
Qed.

Section Model.

Variable forward : Batch -> bool -> Tensor.
Variable bce : Tensor -> Tensor -> Q.
Variable auc : Tensor -> ITensor -> option Q.

Lemma criterion_same_shape (o l : Tensor) :
  shape l = shape o -> criterion bce o l = Some (bce o l).
Proof.
  intros H. unfold criterion. rewrite H.
  destruct (list_eq_dec Nat.eq_dec (shape o) (shape o)) as [_ | Hn];
    [reflexivity | congruence].
Qed.

(** C8: in each of the three steps the expanded labels are passed through
    [reshape_as outputs]: when their element count differs from the
    outputs' the step fails before the loss; when it agrees, the loss is
    computed on the labels' own values laid out in exactly the outputs'
    shape (nothing dropped, padded or broadcast), and the step returns that
    loss unless the AUROC metric, run next on the same outputs and labels,
    raises. *)
Theorem steps_reshape_labels (batch : Batch) (labels : Tensor) :
  expand_targets (b_targets batch) = Some labels ->
  (length (tdata labels) <> numel (forward batch true) ->
     loss_of bce (forward batch true) batch = None
     /\ training_step forward bce auc batch = None)
  /\ (length (tdata labels) <> numel (forward batch false) ->
     loss_of bce (forward batch false) batch = None
     /\ validation_step forward bce auc batch = None
     /\ test_step forward bce auc batch = None)
  /\ (length (tdata labels) = numel (forward batch true) ->
     let outputs := forward batch true in
     let labels' := {| shape := shape outputs; tdata := tdata labels |} in
     loss_of bce outputs batch = Some (bce outputs labels', labels')
     /\ training_step forward bce auc batch
        = option_map (fun a => (bce outputs labels', outputs, labels',
                                [("Loss_train"%string, bce outputs labels');
                                 ("Auc_train"%string, a)]))
            (auc outputs (to_int labels')))
  /\ (length (tdata labels) = numel (forward batch false) ->
     let outputs := forward batch false in
     let labels' := {| shape := shape outputs; tdata := tdata labels |} in
     loss_of bce outputs batch = Some (bce outputs labels', labels')
     /\ validation_step forward bce auc batch
        = option_map (fun a => (bce outputs labels',
                                [("Loss_val"%string, bce outputs labels');
                                 ("Auc_val"%string, a)]))
            (auc outputs (to_int labels'))
     /\ test_step forward bce auc batch
        = option_map (fun a => (bce outputs labels',
                                [("Test_loss"%string, bce outputs labels');
                                 ("Test_auc"%string, a)]))
            (auc outputs (to_int labels'))).
Proof.
  intros H. unfold training_step, validation_step, test_step, loss_of.
  rewrite H. unfold reshape_as.
  split; [| split; [| split]].
  - intros Hn. apply Nat.eqb_neq in Hn. rewrite Hn. split; reflexivity.
  - intros Hn. apply Nat.eqb_neq in Hn. rewrite Hn. repeat split.
  - intros He. apply Nat.eqb_eq in He. rewrite He. cbv zeta.
    rewrite criterion_same_shape by reflexivity. split; [reflexivity |].
    destruct (auc _ _); reflexivity.
  - intros He. apply Nat.eqb_eq in He. rewrite He. cbv zeta.
    rewrite criterion_same_shape by reflexivity. split; [reflexivity |].
    split; destruct (auc _ _); reflexivity.
Qed.

End Model.

End StepsFacts.

(** * Concrete instances *)
Module Witnesses.
Import Embedding EmbeddingFacts.

(** A one-layer encoder whose hidden state is the id column itself. *)
Definition zsum (l : list Z) : Z := fold_right Z.add 0%Z l.
Definition bert_toy (a b c : Batch2) : list (Hidden Z) := [a; a].

Lemma bert_toy_keeps_length : encoder_keeps_length bert_toy.
Proof.
  intros a b c _ _. split; [discriminate |].
  exists (map (@length Z) a). split; [apply length_map |].
  repeat constructor.
Qed.

Lemma get_embedding_chunked_short_witness :
  get_embedding zsum bert_toy true (repeat [3%Z] 300) (repeat [1%Z] 300) (repeat [0%Z] 300)
  = get_embedding zsum bert_toy false (repeat [3%Z] 300) (repeat [1%Z] 300) (repeat [0%Z] 300).
Proof.
  apply (get_embedding_chunked_short Z zsum bert_toy _ _ _ 300);
    [apply repeat_length | apply repeat_length | apply repeat_length | lia].
Defined.

Lemma get_embedding_row_counts_witness :
  exists e e',
    get_embedding zsum bert_toy true (repeat [3%Z] 1000) (repeat [1%Z] 1000) (repeat [0%Z] 1000)
      = Some e /\ length e = 1000
    /\ get_embedding zsum bert_toy false (repeat [3%Z] 1000) (repeat [1%Z] 1000)
         (repeat [0%Z] 1000) = Some e' /\ length e' = 512
    /\ map (@length Column) (chunk (repeat [3%Z] 1000)) = [512; 488].
Proof.
  destruct (get_embedding_row_counts Z zsum bert_toy
              (repeat [3%Z] 1000) (repeat [1%Z] 1000) (repeat [0%Z] 1000) 1000
              bert_toy_keeps_length (repeat_length _ _) (repeat_length _ _)
              (repeat_length _ _) ltac:(lia))
    as [Hch [[hs [_ [Hget Hlen]]] [e' [Hget' Hlen']]]].
  exists (concat hs), e'. split; [exact Hget |]. split; [exact Hlen |].
  split; [exact Hget' |]. split; [exact Hlen' |].
  inversion Hch as [| ? ? [Hw _] _]. exact Hw.
Defined.

Lemma get_embedding_window_local_witness :
  exists e e',
    get_embedding zsum bert_toy true (repeat [0%Z] 512 ++ repeat [1%Z] 88)
      (repeat [1%Z] 600) (repeat [0%Z] 600) = Some e
    /\ get_embedding zsum bert_toy true (repeat [0%Z] 512 ++ repeat [2%Z] 88)
      (repeat [1%Z] 600) (repeat [0%Z] 600) = Some e'
    /\ window e 0 = window e' 0.
Proof.
  apply (get_embedding_window_local Z zsum bert_toy _ _ _ _ _ _ 600 0
           bert_toy_keeps_length);
    try reflexivity; lia.
Defined.

End Witnesses.

Module DatasetWitnesses.
Import Dataset DatasetFacts.

(** A tokenizer that gives one token per character. *)
Definition tok (t : String.string) (add_special_tokens : bool) : Encoding :=
  {| enc_input_ids := repeat 1%Z (String.length t);
     enc_token_type_ids := repeat 0%Z (String.length t);
     enc_attention_mask := repeat 1%Z (String.length t) |}.

Definition mk_row (p : Z) (t : String.string) (l : bool) : Row :=
  {| paper_id := p; text := Some t; in_summary := Some l |}.

(** Paper 7 has three sentences of 5, 7 and 3 tokens labelled True, False,
    True; a sentence of paper 3 sits between them. *)
Definition frame_ex : Frame :=
  {| columns := ["paper_id"; "text"; "in_summary"]%string;
     rows := [mk_row 7 "aaaaa" true; mk_row 3 "dd" false;
              mk_row 7 "bbbbbbb" false; mk_row 7 "ccc" true]%string |}.

Definition ds_ex : SuMM :=
  {| data := frame_ex; process_paper_level := true;
     papers_dict := group_indices (rows frame_ex) |}.

Lemma getitem_paper_concat_witness :
  exists ex, getitem tok ds_ex 1 = Some ex
    /\ length (input_ids ex) = 15
    /\ targets ex = map FNum (repeat 1%Q 5 ++ repeat 0%Q 7 ++ repeat 1%Q 3).
Proof.
  assert (HF : Forall (fun r => text r <> None) (rows frame_ex)).
  { repeat constructor; discriminate. }
  destruct (getitem_paper_concat tok frame_ex ds_ex 1 eq_refl eq_refl eq_refl HF
              ltac:(vm_compute; lia)) as [k [Hk Hget]].
  cbn in Hk. destruct Hk as [<- | [<- | [<- | [<- | []]]]];
    try (vm_compute in Hget; discriminate Hget);
    (eexists; split; [exact Hget | split; reflexivity]).
Defined.

Lemma combine_inputs_single_paper_witness :
  (exists k0,
     combine_inputs tok frame_ex
     = Some (aggregate (map (fun r => label_row r (sentence_encoding tok r))
                            (filter (fun r => Z.eqb (paper_id r) k0) (rows frame_ex))))
     /\ filter (fun r => Z.eqb (paper_id r) k0) (rows frame_ex) <> rows frame_ex)
  /\ NoDup (concat (papers_dict ds_ex))
  /\ In 3 (concat (papers_dict ds_ex)).
Proof.
  assert (HF : Forall (fun r => text r <> None) (rows frame_ex)).
  { repeat constructor; discriminate. }
  destruct (combine_inputs_single_paper tok frame_ex ds_ex eq_refl)
    as [Hc [Hnd [Hcov _]]].
  split; [| split; [exact Hnd | apply Hcov; vm_compute; lia]].
  destruct (Hc frame_ex eq_refl eq_refl HF ltac:(discriminate)) as [k0 [Hk0 Hiff]].
  exists k0. split; [exact Hk0 |]. intros Heq.
  assert (Hpid : (7 = 3)%Z).
  { apply (proj1 Hiff Heq (mk_row 7 "aaaaa" true) (mk_row 3 "dd" false));
      cbn; tauto. }
  discriminate Hpid.
Defined.

(** A frame with a [paper_id] and a [text] column but no [in_summary]
    column, whose only record has no text. *)
Definition bad_frame : Frame :=
  {| columns := ["paper_id"; "text"]%string;
     rows := [{| paper_id := 1; text := None; in_summary := None |}] |}.

(** A well-formed frame but for the NaN label of its first sentence. *)
Definition nan_frame : Frame :=
  {| columns := ["paper_id"; "text"; "in_summary"]%string;
     rows := [{| paper_id := 1; text := Some "ab"%string; in_summary := None |};
              mk_row 1 "c" true] |}.

Lemma SuMM_init_accepts_malformed_witness :
  (exists ds, SuMM_init bad_frame false = Some ds /\ getitem tok ds 0 = None)
  /\ (exists ds ex, SuMM_init nan_frame true = Some ds /\ getitem tok ds 0 = Some ex
        /\ In FNaN (targets ex)).
Proof.
  split.
  - destruct (SuMM_init_accepts_malformed tok bad_frame false eq_refl)
      as [[ds [Hds _]] [Hbad _]].
    exists ds. split; [exact Hds |].
    apply (proj1 (Hbad ds 0 _ Hds eq_refl (or_intror (or_introl eq_refl)))). reflexivity.
  - destruct (SuMM_init_accepts_malformed tok nan_frame true eq_refl)
      as [[ds [Hds _]] [_ [_ Hnan]]].
    assert (HF : Forall (fun r => text r <> None) (rows nan_frame)).
    { repeat constructor; discriminate. }
    assert (Hin : In 0 (nth 0 (papers_dict ds) [])).
    { vm_compute in Hds. injection Hds as <-. vm_compute. left. reflexivity. }
    destruct (Hnan ds 0 0 _ Hds eq_refl eq_refl eq_refl HF Hin eq_refl eq_refl)
      as [ex [pre [post [Hg Ht]]]].
    exists ds, ex. split; [exact Hds |]. split; [exact Hg |].
    rewrite Ht. apply in_or_app. right. apply in_or_app. left.
    vm_compute. left. reflexivity.
Defined.

(** C7 (as stated, refuted): the provider is built over [bad_frame] in
    both modes. *)
Lemma SuMM_init_no_rejection :
  SuMM_init bad_frame true <> None /\ SuMM_init bad_frame false <> None.
Proof. split; vm_compute; discriminate. Qed.

End DatasetWitnesses.

Module StepsWitnesses.
Import Dataset Collate CollateFacts Steps StepsFacts.

Definition batch_ex : list Example :=
  [{| input_ids := [101; 7592]%Z; attention_mask := [1; 1]%Z;
      token_type_ids := [0; 0]%Z; targets := [FNum 1; FNum 0] |};
   {| input_ids := [101]%Z; attention_mask := [1]%Z;
      token_type_ids := [0]%Z; targets := [FNum 1] |}].

Lemma collate_shape_and_padding_witness :
  exists out, collate batch_ex = Some out
    /\ b_input_ids out = [[101; 7592]; [101; 0]]%Z
    /\ b_targets out = [[FNum 1; FNum 0]; [FNum 1; FNum 0]]
    /\ b_token_type_ids out = [[0; 0]; [0; 0]]%Z
    /\ b_input_ids_dtype out = Int32 /\ b_targets_dtype out = Float32.
Proof.
  destruct (collate_shape_and_padding batch_ex ltac:(discriminate)
              ltac:(unfold small_ids; repeat constructor; cbn; lia))
    as [out [Hc [_ [_ [_ [Htt [_ [_ [_ [_ [_ [_ [Hd1 [_ [_ Hd4]]]]]]]]]]]]]]].
  exists out. split; [exact Hc |].
  split; [| split; [| split; [exact Htt | split; assumption]]].
  - vm_compute in Hc. injection Hc as <-. reflexivity.
  - vm_compute in Hc. injection Hc as <-. reflexivity.
Defined.

Lemma expand_targets_roundtrip_witness :
  exists t,
    expand_targets (map (map (fun b => cell_val (Some b))) [[true; false]; [true]]) = Some t
    /\ shape t = [3; 2]
    /\ tdata t = [1; 0; 0; 1; 1; 0]%Q.
Proof.
  destruct (expand_targets_roundtrip [[true; false]; [true]] ltac:(discriminate))
    as [[t [Ht [Hs Hd]]] _].
  exists t. split; [exact Ht |]. split; [exact Hs | rewrite Hd; reflexivity].
Defined.

(** A model with a fixed output of shape [2; 2] and a loss that adds up
    the labels. *)
Definition out_ex : Tensor := {| shape := [2; 2]; tdata := [1; 0; 0; 1]%Q |}.
Definition forward_ex (b : Batch) (train : bool) : Tensor := out_ex.
Definition bce_ex (o l : Tensor) : Q := fold_right Qplus 0%Q (tdata l).

Definition cbatch (ts : list (list fval)) : Batch :=
  {| b_input_ids := []; b_input_ids_dtype := Int32;
     b_attention_mask := []; b_attention_mask_dtype := Int32;
     b_token_type_ids := []; b_token_type_ids_dtype := Int32;
     b_targets := ts; b_targets_dtype := Float32 |}.

(** An AUROC that raises unless the labels have the outputs' shape. *)
Definition auc_ex (o : Tensor) (l : ITensor) : option Q :=
  if list_eq_dec Nat.eq_dec (shape o) (ishape l) then Some (1 # 2)%Q else None.

Lemma steps_reshape_labels_witness :
  training_step forward_ex bce_ex auc_ex (cbatch [[FNum 1; FNum (-1)]])
    = Some (bce_ex out_ex {| shape := [2; 2]; tdata := [1; 0; 1; 0]%Q |}, out_ex,
            {| shape := [2; 2]; tdata := [1; 0; 1; 0]%Q |},
            [("Loss_train"%string, 2%Q); ("Auc_train"%string, (1 # 2)%Q)])
  /\ validation_step forward_ex bce_ex auc_ex (cbatch [[FNum 1; FNum 0; FNum 0]]) = None
  /\ test_step forward_ex bce_ex auc_ex (cbatch [[FNum 1; FNum 0; FNum 0]]) = None.
Proof.
  destruct (steps_reshape_labels forward_ex bce_ex auc_ex (cbatch [[FNum 1; FNum (-1)]]) _
              eq_refl) as [_ [_ [Htr _]]].
  destruct (steps_reshape_labels forward_ex bce_ex auc_ex (cbatch [[FNum 1; FNum 0; FNum 0]]) _
              eq_refl) as [_ [Hval _]].
  split.
  - destruct (Htr eq_refl) as [_ ->]. reflexivity.
  - destruct (Hval ltac:(cbn; discriminate)) as [_ H]. exact H.
Defined.

End StepsWitnesses.

(** * Further properties of the code *)
Module DatasetExtra.
Import Dataset DatasetFacts.

Lemma length_group_indices rs :
  length (group_indices rs) = length (nodup Z.eq_dec (map paper_id rs)).
Proof.
  unfold group_indices, group_keys. rewrite length_map.
  symmetry. apply Permutation_length, ZSort.Permuted_sort.
Qed.

Lemma map_nth_seq_self {A} (l : list A) d :
  map (fun i => nth i l d) (seq 0 (length l)) = l.
Proof.
  induction l as [|x l IH]; [reflexivity |].
  cbn [length]. rewrite <- cons_seq, <- seq_shift. cbn [map nth].
  rewrite map_map. cbn [nth]. rewrite IH. reflexivity.
Qed.

Lemma concat_group_indices_perm rs :
  Permutation (concat (group_indices rs)) (seq 0 (length rs)).
Proof.
  apply NoDup_Permutation.
  - unfold group_indices.
    apply concat_filter_NoDup; [apply group_keys_NoDup | apply seq_NoDup].
  - apply seq_NoDup.
  - intros j. rewrite In_concat_group_indices, in_seq. lia.
Qed.

(** The rows of the papers, paper after paper: the rows of each key in
    source order, the keys in [groupby] order. *)
Lemma grouped_rows_perm rs :
  Permutation
    (concat (map (fun k => filter (fun r => Z.eqb (paper_id r) k) rs)
                 (group_keys (map paper_id rs))))
    rs.
Proof.
  assert (Heq : concat (map (fun k => filter (fun r => Z.eqb (paper_id r) k) rs)
                            (group_keys (map paper_id rs)))
                = map (fun j => nth j rs dummy_row) (concat (group_indices rs))).
  { unfold group_indices. rewrite concat_map, !map_map. f_equal.
    apply map_ext. intros k. symmetry.
    apply (select_filter rs (fun r => Z.eqb (paper_id r) k)). }
  rewrite Heq. rewrite <- (map_nth_seq_self rs dummy_row) at 2.
  apply Permutation_map, concat_group_indices_perm.
Qed.

Section Tokenizer.

Variable tokenizer : String.string -> bool -> Encoding.

(** The example a paper-level item is made of, from the paper's sentences. *)
Definition paper_example (sentences : list Row) : Example :=
  {| input_ids := concat (map (fun r => enc_input_ids (sentence_encoding tokenizer r)) sentences);
     attention_mask :=
       concat (map (fun r => enc_attention_mask (sentence_encoding tokenizer r)) sentences);
     token_type_ids :=
       concat (map (fun r => enc_token_type_ids (sentence_encoding tokenizer r)) sentences);
     targets :=
       concat (map (fun r => repeat (cell_val (in_summary r))
                               (length (enc_input_ids (sentence_encoding tokenizer r))))
                   sentences) |}.

Lemma getitem_paper_group (f : Frame) (ds : SuMM) (i : nat) :
  SuMM_init f true = Some ds ->
  has_col f "text" = true -> has_col f "in_summary" = true ->
  Forall (fun r => text r <> None) (rows f) ->
  i < length (papers_dict ds) ->
  getitem tokenizer ds i
  = Some (paper_example
            (filter (fun r => Z.eqb (paper_id r)
                                    (nth i (group_keys (map paper_id (rows f))) 0%Z))
                    (rows f))).
Proof.
  intros Hinit Ht Hl HF Hi. apply SuMM_init_inv in Hinit. destruct Hinit as [_ ->].
  cbn [papers_dict] in Hi.
  set (k := nth i (group_keys (map paper_id (rows f))) 0%Z).
  assert (Hk : In k (map paper_id (rows f))).
  { apply group_keys_In. apply nth_In. unfold group_indices in Hi.
    rewrite length_map in Hi. exact Hi. }
  assert (Hnth : nth i (group_indices (rows f)) []
                 = filter (fun j => Z.eqb (paper_id (nth j (rows f) dummy_row)) k)
                          (seq 0 (length (rows f)))).
  { unfold group_indices in *. rewrite length_map in Hi.
    rewrite nth_map_in with (d := 0%Z) by exact Hi. reflexivity. }
  assert (Hlt : Forall (fun j => j < length (rows f)) (nth i (group_indices (rows f)) [])).
  { rewrite Hnth. apply Forall_forall. intros j Hj. apply filter_In in Hj.
    destruct Hj as [Hj _]. apply in_seq in Hj. lia. }
  unfold getitem, getitem_paper. cbn [process_paper_level papers_dict data].
  rewrite (nth_error_nth' _ [] Hi), (loc_ok f _ Hlt), Hnth.
  rewrite (select_filter (rows f) (fun r => Z.eqb (paper_id r) k)).
  set (sentences := filter (fun r => Z.eqb (paper_id r) k) (rows f)).
  destruct (combine_inputs_ok tokenizer {| columns := columns f; rows := sentences |})
    as [k0 [Hk0 Hc]]; cbn [rows] in *.
  - exact Ht.
  - exact Hl.
  - apply Forall_forall. intros r Hr. apply filter_In in Hr.
    rewrite Forall_forall in HF. apply HF, Hr.
  - apply (filter_nonempty _ _ k Hk). intros r Hr. apply Z.eqb_eq. exact Hr.
  - rewrite Hc.
    assert (Hk0k : k0 = k).
    { apply in_map_iff in Hk0. destruct Hk0 as [r [<- Hr]].
      apply filter_In in Hr. destruct Hr as [_ Hr]. apply Z.eqb_eq. exact Hr. }
    subst k0.
    rewrite (filter_all _ sentences).
    2: { intros r Hr. apply filter_In in Hr. apply Hr. }
    unfold aggregate, paper_example.
    cbn [lt_input_ids lt_attention_mask lt_token_type_ids lt_targets].
    rewrite !map_map, concat_map, map_map.
    unfold label_row. cbn [lt_input_ids lt_attention_mask lt_token_type_ids lt_targets].
    rewrite (map_ext (fun x => map cell_val (repeat (in_summary x) _))
                     (fun x => repeat (cell_val (in_summary x))
                                 (length (enc_input_ids (sentence_encoding tokenizer x)))))
      by (intros x; apply map_repeat).
    reflexivity.
Qed.

Lemma length_concat_map_ext {A B C} (F : A -> list B) (G : A -> list C) l :
  (forall x, length (F x) = length (G x)) ->
  length (concat (map F l)) = length (concat (map G l)).
Proof.
  intros H. induction l as [|x l IH]; [reflexivity |].
  cbn [map concat]. rewrite !length_app, H, IH. reflexivity.
Qed.

Lemma concat_map_concat {A B C} (F : B -> list C) (g : A -> list B) l :
  concat (map (fun x => concat (map F (g x))) l) = concat (map F (concat (map g l))).
Proof.
  induction l as [|x l IH]; [reflexivity |].
  cbn [map concat]. rewrite map_app, concat_app, IH. reflexivity.
Qed.

Lemma length_group_keys ks : length (group_keys ks) = length (nodup Z.eq_dec ks).
Proof. symmetry. apply Permutation_length, ZSort.Permuted_sort. Qed.

(** [__len__] is the number of indices [__getitem__] serves: in
    paper-level mode it is the number of paper groups, and any index at or
    beyond it fails ([KeyError] on [papers_dict], [IndexError] on [iloc]). *)
Theorem getitem_out_of_range (f : Frame) (paper_level : bool) (ds : SuMM) :
  SuMM_init f paper_level = Some ds ->
  len ds = (if paper_level then length (papers_dict ds) else length (rows f))
  /\ (forall index, len ds <= index -> getitem tokenizer ds index = None).
Proof.
  intros Hinit. apply SuMM_init_inv in Hinit. destruct Hinit as [_ ->].
  unfold len, getitem. cbn [process_paper_level papers_dict data].
  destruct paper_level.
  - rewrite length_group_indices. split; [reflexivity |].
    intros index Hix. unfold getitem_paper. cbn [papers_dict].
    rewrite (proj2 (nth_error_None _ _)) by (rewrite length_group_indices; exact Hix).
    reflexivity.
  - split; [reflexivity |]. intros index Hix. unfold getitem_sentence. cbn [data].
    rewrite (proj2 (nth_error_None _ _)) by exact Hix. reflexivity.
Qed.

(** Sentence mode: [__getitem__] succeeds exactly on the indices below
    [__len__] whose row has a text, when the data has [text] and
    [in_summary] columns; it then tokenizes the text with the special
    tokens and gives every token the row's label, 1.0 when the cell is
    truthy and 0.0 otherwise. *)
Theorem getitem_sentence_defined (f : Frame) (ds : SuMM) (index : nat) :
  SuMM_init f false = Some ds ->
  (getitem tokenizer ds index <> None <->
     index < len ds /\ has_col f "text" = true /\ has_col f "in_summary" = true
     /\ text (nth index (rows f) dummy_row) <> None)
  /\ (forall ex, getitem tokenizer ds index = Some ex ->
        exists t, text (nth index (rows f) dummy_row) = Some t
          /\ input_ids ex = enc_input_ids (tokenizer t true)
          /\ attention_mask ex = enc_attention_mask (tokenizer t true)
          /\ targets ex = repeat (if truthy (in_summary (nth index (rows f) dummy_row))
                                  then FNum 1 else FNum 0)
                                 (length (input_ids ex))).
Proof.
  intros Hinit. apply SuMM_init_inv in Hinit. destruct Hinit as [_ ->].
  unfold getitem, len, getitem_sentence. cbn [process_paper_level data].
  destruct (nth_error (rows f) index) as [r|] eqn:E.
  - assert (Hlt : index < length (rows f)) by (apply nth_error_Some; congruence).
    assert (Hr : nth index (rows f) dummy_row = r) by (apply nth_error_nth; exact E).
    rewrite Hr.
    destruct (has_col f "text"); cbn [negb];
      [| split; [split; [intros H; congruence | intros [_ [H _]]; discriminate H]
                | intros ex H; discriminate H]].
    destruct (text r) as [t|];
      [| split; [split; [intros H; congruence | intros [_ [_ [_ H]]]; congruence]
                | intros ex H; discriminate H]].
    destruct (has_col f "in_summary"); cbn [negb];
      [| split; [split; [intros H; congruence | intros [_ [_ [H _]]]; discriminate H]
                | intros ex H; discriminate H]].
    split.
    + split; [intros _ | intros _; discriminate].
      split; [exact Hlt | split; [reflexivity | split; [reflexivity | discriminate]]].
    + intros ex H. injection H as <-. exists t.
      split; [reflexivity | split; [reflexivity | split; [reflexivity |]]].
      cbn [targets input_ids]. destruct (truthy (in_summary r)); reflexivity.
  - assert (Hge : length (rows f) <= index) by (apply nth_error_None; exact E).
    split; [split; [intros H; congruence | intros [H _]; lia] | intros ex H; discriminate H].
Qed.

(** Paper-level mode, over data with [text] and [in_summary] columns and a
    text in every row: [__getitem__] succeeds exactly on the indices below
    [__len__], and each example has one target per token; it also has one
    attention-mask entry per token when the tokenizer returns as many mask
    entries as ids. *)
Theorem getitem_paper_defined (f : Frame) (ds : SuMM) :
  SuMM_init f true = Some ds ->
  has_col f "text" = true -> has_col f "in_summary" = true ->
  Forall (fun r => text r <> None) (rows f) ->
  forall i,
    (getitem tokenizer ds i <> None <-> i < len ds)
    /\ (forall ex, getitem tokenizer ds i = Some ex ->
          length (targets ex) = length (input_ids ex)
          /\ ((forall t b, length (enc_attention_mask (tokenizer t b))
                           = length (enc_input_ids (tokenizer t b))) ->
              length (attention_mask ex) = length (input_ids ex))).
Proof.
  intros Hinit Ht Hl HF i.
  destruct (getitem_out_of_range f true ds Hinit) as [Hlen Hout].
  destruct (Nat.lt_ge_cases i (len ds)) as [Hi | Hi].
  - rewrite Hlen in Hi.
    rewrite (getitem_paper_group f ds i Hinit Ht Hl HF Hi).
    split; [split; [intros _; rewrite Hlen; exact Hi | intros _; discriminate] |].
    intros ex H. injection H as <-. unfold paper_example.
    cbn [targets input_ids attention_mask]. split.
    + apply length_concat_map_ext. intros r. apply repeat_length.
    + intros Htok. apply length_concat_map_ext. intros r.
      unfold sentence_encoding. apply Htok.
  - rewrite (Hout i Hi).
    split; [split; [intros H; congruence | lia] | intros ex H; discriminate H].
Qed.

(** Paper-level mode, over data with [text] and [in_summary] columns and a
    text in every row: the items at indices [0 .. __len__ - 1] all exist
    and, put end to end, are the token sequences and targets of all the
    data's sentences, each sentence exactly once (the sentences reordered
    paper by paper). *)
Theorem getitem_paper_partition (f : Frame) (ds : SuMM) :
  SuMM_init f true = Some ds ->
  has_col f "text" = true -> has_col f "in_summary" = true ->
  Forall (fun r => text r <> None) (rows f) ->
  exists exs, map_opt (getitem tokenizer ds) (seq 0 (len ds)) = Some exs
   /\ exists sentences, Permutation sentences (rows f)
   /\ concat (map input_ids exs)
      = concat (map (fun r => enc_input_ids (sentence_encoding tokenizer r)) sentences)
   /\ concat (map attention_mask exs)
      = concat (map (fun r => enc_attention_mask (sentence_encoding tokenizer r)) sentences)
   /\ concat (map token_type_ids exs)
      = concat (map (fun r => enc_token_type_ids (sentence_encoding tokenizer r)) sentences)
   /\ concat (map targets exs)
      = concat (map (fun r => repeat (cell_val (in_summary r))
                                (length (enc_input_ids (sentence_encoding tokenizer r))))
                    sentences).
Proof.
  intros Hinit Ht Hl HF.
  destruct (getitem_out_of_range f true ds Hinit) as [Hlen _].
  set (keys := group_keys (map paper_id (rows f))).
  set (filt := fun k => filter (fun r => Z.eqb (paper_id r) k) (rows f)).
  assert (Hkl : len ds = length keys).
  { rewrite Hlen. apply SuMM_init_inv in Hinit. destruct Hinit as [_ ->].
    cbn [papers_dict]. unfold keys. rewrite length_group_indices, length_group_keys.
    reflexivity. }
  rewrite (map_opt_some _ (fun i => paper_example (filt (nth i keys 0%Z)))).
  2: { intros i Hi. apply in_seq in Hi.
       apply (getitem_paper_group f ds i Hinit Ht Hl HF). rewrite <- Hlen. lia. }
  eexists. split; [reflexivity |].
  exists (concat (map filt keys)). split; [apply grouped_rows_perm |].
  rewrite Hkl.
  rewrite <- (map_map (fun i => nth i keys 0%Z) (fun k => paper_example (filt k))),
    map_nth_seq_self.
  rewrite !map_map. unfold paper_example. cbn [input_ids attention_mask token_type_ids targets].
  rewrite !concat_map_concat. repeat split; reflexivity.
Qed.

End Tokenizer.

End DatasetExtra.

Module CollateExtra.
Import Dataset Collate CollateFacts Steps.

(** [maximum] in [collate]. *)
Definition max_len (batch : list Example) : nat :=
  list_max (map (fun item => length (input_ids item)) batch).



Lemma max_len_ge batch e : In e batch -> length (input_ids e) <= max_len batch.
Proof.
  intros He. apply list_max_In. apply (in_map (fun e => length (input_ids e))), He.
Qed.

(** What [collate] returns for a batch whose examples have as many mask
    entries and targets as ids. *)
Lemma collate_ok (batch : list Example) :
  batch <> [] ->
  Forall (fun e => length (attention_mask e) = length (input_ids e)
                   /\ length (targets e) = length (input_ids e)) batch ->
  collate batch = Some
    {| b_input_ids :=
         map (fun e => map to_int32 (map f32_of_Z (input_ids e)
                         ++ repeat 0%Z (max_len batch - length (input_ids e)))) batch;
       b_attention_mask :=
         map (fun e => map to_int32 (map f32_of_Z (attention_mask e)
                         ++ repeat 0%Z (max_len batch - length (input_ids e)))) batch;
       b_token_type_ids := repeat (repeat 0%Z (max_len batch)) (length batch);
       b_targets :=
         map (fun e => targets e ++ repeat (FNum 0) (max_len batch - length (input_ids e)))
             batch;
       b_input_ids_dtype := Int32; b_attention_mask_dtype := Int32;
       b_token_type_ids_dtype := Int32; b_targets_dtype := Float32 |}.
Proof.
  intros Hne Hall. rewrite Forall_forall in Hall.
  rewrite (collate_nonempty batch Hne). cbv zeta. fold (max_len batch).
  rewrite (DatasetFacts.map_opt_some _
             (fun d => map f32_of_Z (input_ids d)
                       ++ repeat 0%Z (max_len batch - length (input_ids d))))
    by (intros d Hd; apply pad_fits, max_len_ge, Hd).
  rewrite (DatasetFacts.map_opt_some _
             (fun d => map f32_of_Z (attention_mask d)
                       ++ repeat 0%Z (max_len batch - length (input_ids d))))
    by (intros d Hd; destruct (Hall d Hd) as [Hm _]; rewrite <- Hm;
        apply pad_fits; rewrite Hm; apply max_len_ge, Hd).
  rewrite (DatasetFacts.map_opt_some _
             (fun d => targets d ++ repeat (FNum 0) (max_len batch - length (input_ids d))))
    by (intros d Hd; destruct (Hall d Hd) as [_ Ht]; unfold pad_float;
        rewrite <- Ht, pad_fits, map_id; [reflexivity | rewrite Ht; apply max_len_ge, Hd]).
  rewrite !map_map. reflexivity.
Qed.

Lemma flat_map_concat' {A B} (f : A -> list B) ls :
  flat_map f (concat ls) = concat (map (flat_map f) ls).
Proof.
  induction ls as [|l ls IH]; [reflexivity |].
  cbn [concat map]. rewrite flat_map_app, IH. reflexivity.
Qed.

Lemma flat_map_repeat {A B} (f : A -> list B) x n :
  flat_map f (repeat x n) = concat (repeat (f x) n).
Proof. induction n as [|n IH]; [reflexivity |]. cbn. rewrite IH. reflexivity. Qed.

Lemma length_concat_rows {A} (rows : list (list A)) m :
  Forall (fun r => length r = m) rows -> length (concat rows) = length rows * m.
Proof.
  induction 1 as [|r rows Hr _ IH]; [reflexivity |].
  cbn [concat length]. rewrite length_app, Hr, IH. lia.
Qed.


(** Over a non-empty batch whose examples have as many mask entries and
    targets as ids, the labels built from the collated targets have one
    row per position of the padded (N, max) block, and every padding
    position is labelled [0,1], the "not in summary" class; a batch of
    empty examples has no labels and [expand_targets] fails on it. *)
Theorem collate_padding_labels (batch : list Example) :
  batch <> [] ->
  Forall (fun e => length (attention_mask e) = length (input_ids e)
                   /\ length (targets e) = length (input_ids e)) batch ->
  exists out, collate batch = Some out
   /\ (max_len batch = 0 -> expand_targets (b_targets out) = None)
   /\ (0 < max_len batch ->
       expand_targets (b_targets out)
       = Some {| shape := [length batch * max_len batch; 2];
                 tdata := concat (map (fun e => flat_map expand_val (targets e)
                                         ++ concat (repeat [0; 1]%Q
                                                      (max_len batch - length (input_ids e))))
                                      batch) |}).
Proof.
  intros Hne Hall. rewrite (collate_ok batch Hne Hall).
  eexists. split; [reflexivity |]. cbn [b_targets].
  rewrite Forall_forall in Hall.
  set (m := max_len batch).
  assert (Hlen : length (concat (map (fun e => targets e ++ repeat (FNum 0)
                                                (m - length (input_ids e))) batch))
                 = length batch * m).
  { rewrite length_concat_rows with (m := m).
    - rewrite length_map. reflexivity.
    - apply Forall_forall. intros row Hrow. apply in_map_iff in Hrow.
      destruct Hrow as [e [<- He]]. destruct (Hall e He) as [_ Ht].
      rewrite length_app, repeat_length, Ht. pose proof (max_len_ge batch e He). lia. }
  assert (Hflat : flat_map expand_val
                    (concat (map (fun e => targets e ++ repeat (FNum 0)
                                             (m - length (input_ids e))) batch))
                  = concat (map (fun e => flat_map expand_val (targets e)
                                   ++ concat (repeat [0; 1]%Q (m - length (input_ids e))))
                                batch)).
  { rewrite flat_map_concat', map_map. f_equal. apply map_ext. intros e.
    rewrite flat_map_app, flat_map_repeat. reflexivity. }
  unfold expand_targets. split.
  - intros Hm0.
    destruct (concat (map (fun e => targets e ++ repeat (FNum 0)
                                      (m - length (input_ids e))) batch));
      [reflexivity |].
    exfalso. rewrite Hm0 in Hlen. cbn [length] in Hlen. lia.
  - intros Hm.
    assert (HN : 0 < length batch) by (destruct batch; [contradiction | cbn; lia]).
    assert (Hpos : 0 < length batch * m) by (apply Nat.mul_pos_pos; assumption).
    destruct (concat (map (fun e => targets e ++ repeat (FNum 0)
                                      (m - length (input_ids e))) batch)).
    + exfalso. cbn [length] in Hlen. lia.
    + rewrite Hlen, Hflat. reflexivity.
Qed.

End CollateExtra.

Module ForwardExtra.
Import Embedding EmbeddingFacts Dataset Collate Steps Forward CollateExtra.

Lemma map_opt_ext {A B} (f g : A -> option B) l :
  (forall x, f x = g x) -> map_opt f l = map_opt g l.
Proof.
  intros H. induction l as [|x l IH]; [reflexivity |].
  cbn [map_opt]. rewrite H, IH. reflexivity.
Qed.

Lemma last_layers_app {A} (pre hs : list A) :
  5 <= length hs -> last_layers 5 (pre ++ hs) = last_layers 5 hs.
Proof.
  intros H. unfold last_layers. rewrite length_app, skipn_app.
  assert (Hs : skipn (length pre + length hs - 5) pre = []).
  { apply skipn_all2. lia. }
  rewrite Hs. cbn [app]. f_equal. lia.
Qed.

Lemma length_by_position rows m : length (by_position rows m) = m.
Proof. unfold by_position. rewrite length_map, length_seq. reflexivity. Qed.

Lemma length_expand_vals vals : length (flat_map expand_val vals) = 2 * length vals.
Proof.
  induction vals as [|v vals IH]; [reflexivity |].
  cbn [flat_map length]. rewrite length_app, IH.
  unfold expand_val. destruct (to_bool v); cbn [length]; lia.
Qed.

(** The labels of a collated batch of non-empty width: two entries per
    position of the (N, max) block. *)
Lemma collated_labels (exs : list Example) (batch : Batch) :
  Forall (fun e => length (attention_mask e) = length (input_ids e)
                   /\ length (targets e) = length (input_ids e)) exs ->
  collate exs = Some batch -> 0 < max_len exs ->
  exists labels, expand_targets (b_targets batch) = Some labels
    /\ length (tdata labels) = 2 * (length exs * max_len exs)
    /\ 0 < length exs.
Proof.
  intros Hall Hc Hm.
  assert (Hne : exs <> []) by (intros ->; discriminate Hc).
  rewrite (collate_ok exs Hne Hall) in Hc. injection Hc as <-. cbn [b_targets].
  rewrite Forall_forall in Hall.
  assert (Hlen : length (concat (map (fun e => targets e ++ repeat (FNum 0)
                                      (max_len exs - length (input_ids e))) exs))
                 = length exs * max_len exs).
  { rewrite length_concat_rows with (m := max_len exs).
    - rewrite length_map. reflexivity.
    - apply Forall_forall. intros row Hrow. apply in_map_iff in Hrow.
      destruct Hrow as [e [<- He]]. destruct (Hall e He) as [_ Ht].
      rewrite length_app, repeat_length, Ht. pose proof (max_len_ge exs e He). lia. }
  assert (HN : 0 < length exs) by (destruct exs; [contradiction | cbn; lia]).
  assert (Hpos : 0 < length exs * max_len exs) by (apply Nat.mul_pos_pos; assumption).
  unfold expand_targets.
  destruct (concat (map (fun e => targets e ++ repeat (FNum 0)
                                    (max_len exs - length (input_ids e))) exs)) as [|v vs].
  - cbn [length] in Hlen. lia.
  - eexists. split; [reflexivity |]. cbn [tdata]. rewrite length_expand_vals, Hlen.
    split; [reflexivity | exact HN].
Qed.

Section Model.

Variable V : Type.
Variable vmean : list V -> V.
Variable bert : Batch2 -> Batch2 -> Batch2 -> list (Hidden V).
Variable l1 : V -> list Q.
Variable softmax : list Q -> list Q.
Variable bce : Tensor -> Tensor -> Q.

Lemma forward_length a b c enable_chunk train e :
  get_embedding vmean bert enable_chunk a b c = Some e ->
  exists h, forward vmean bert l1 softmax a b c enable_chunk train = Some h
            /\ length h = length e.
Proof.
  intros He. unfold forward. rewrite He. cbv zeta.
  destruct train; eexists; (split; [reflexivity |]); rewrite !length_map; reflexivity.
Qed.

(** Running the model on a collated batch (its three fields read by
    token position) and computing the loss as the steps do: the output
    has [max l_i] positions in chunked mode and only [min 512 (max l_i)]
    without chunking, and the loss is computed exactly when the mode is
    chunked or the batch is at most 512 tokens wide; a longer batch
    without chunking makes [reshape_as] fail in every step. *)
Theorem steps_need_chunking (exs : list Example) (batch : Batch) :
  encoder_keeps_length bert ->
  Forall (fun e => length (attention_mask e) = length (input_ids e)
                   /\ length (targets e) = length (input_ids e)) exs ->
  collate exs = Some batch ->
  0 < max_len exs ->
  forall enable_chunk train,
  exists h,
    forward vmean bert l1 softmax
      (by_position (b_input_ids batch) (max_len exs))
      (by_position (b_attention_mask batch) (max_len exs))
      (by_position (b_token_type_ids batch) (max_len exs)) enable_chunk train = Some h
    /\ length h = (if enable_chunk then max_len exs else Nat.min 512 (max_len exs))
    /\ (loss_of bce (as_tensor (length exs) h) batch <> None
        <-> enable_chunk = true \/ max_len exs <= 512).
Proof.
  intros Henc Hall Hc Hm enable_chunk train.
  destruct (collated_labels exs batch Hall Hc Hm) as [labels [Hlab [Hll HN]]].
  set (m := max_len exs) in *.
  set (a := by_position (b_input_ids batch) m).
  set (b := by_position (b_attention_mask batch) m).
  set (c := by_position (b_token_type_ids batch) m).
  assert (Ha : length a = m) by apply length_by_position.
  assert (Hb : length b = m) by apply length_by_position.
  assert (Hcc : length c = m) by apply length_by_position.
  assert (Hemb : exists e, get_embedding vmean bert enable_chunk a b c = Some e
                 /\ length e = (if enable_chunk then m else Nat.min 512 m)).
  { destruct enable_chunk.
    - destruct (chunked_run V vmean bert a b c m Henc Ha Hb Hcc) as [hs [_ [Hget Hl]]].
      exists (concat hs). split; assumption.
    - destruct (pool_ok V vmean bert Henc (firstn 512 a) (firstn 512 b) (firstn 512 c))
        as [e [He Hl]].
      + rewrite !length_firstn. congruence.
      + rewrite !length_firstn. congruence.
      + exists e. split; [exact He |]. rewrite Hl, length_firstn, Ha. lia. }
  destruct Hemb as [e [He Hle]].
  destruct (forward_length a b c enable_chunk train e He) as [h [Hf Hh]].
  exists h. split; [exact Hf |]. split; [congruence |].
  unfold loss_of. rewrite Hlab. unfold reshape_as, numel, as_tensor. cbn [shape fold_right].
  destruct (Nat.eqb_spec (length (tdata labels)) (length exs * (length h * (2 * 1))))
    as [Heq | Hneq].
  - rewrite StepsFacts.criterion_same_shape by reflexivity.
    split; [intros _ | intros _; discriminate].
    rewrite Hll in Heq.
    assert (Hx : length h = m).
    { replace (2 * (length exs * m)) with (length exs * (m * (2 * 1))) in Heq by lia.
      apply Nat.mul_cancel_l in Heq; [lia | lia]. }
    destruct enable_chunk; [left; reflexivity | right; lia].
  - split; [intros H; contradiction H; reflexivity |].
    intros Hor. exfalso. apply Hneq. rewrite Hll.
    assert (Hx : length h = m) by (destruct enable_chunk; destruct Hor; lia).
    rewrite Hx. lia.
Qed.

End Model.

(** Without chunking the embedding is exactly the first 512 rows of the
    chunked embedding (for any non-empty batch and an encoder that keeps
    the window length). *)
Theorem get_embedding_first_window (V : Type) (vmean : list V -> V)
    (bert : Batch2 -> Batch2 -> Batch2 -> list (Hidden V)) (a b c : Batch2) (L : nat) :
  encoder_keeps_length bert ->
  length a = L -> length b = L -> length c = L -> 0 < L ->
  exists e, get_embedding vmean bert true a b c = Some e
    /\ get_embedding vmean bert false a b c = Some (firstn 512 e).
Proof.
  intros Henc Ha Hb Hc HL.
  destruct (chunked_run V vmean bert a b c L Henc Ha Hb Hc) as [hs [HF [Hget _]]].
  exists (concat hs). split; [exact Hget |].
  destruct (run_window V vmean bert a b c L hs 0 Ha Hb Hc HF ltac:(lia)) as [Hw Hfirst].
  unfold window in Hw. rewrite Nat.mul_0_r, !skipn_0 in Hw.
  rewrite Nat.mul_0_r, skipn_0 in Hfirst.
  unfold get_embedding. rewrite Hfirst. exact Hw.
Qed.

Lemma stack_Some {V : Type} (ls st : list (Hidden V)) :
  stack ls = Some st -> st = ls.
Proof.
  destruct ls as [|h0 rest]; simpl; [discriminate |].
  destruct (forallb _ rest); [intros H; injection H as <-; reflexivity | discriminate].
Qed.

Lemma forallb_false {A} (f : A -> bool) l :
  forallb f l = false -> exists x, In x l /\ f x = false.
Proof.
  induction l as [|x l IH]; simpl; [discriminate |].
  destruct (f x) eqn:Ex; simpl.
  - intros H. destruct (IH H) as [y [Hy Hf]]. exists y. split; [right |]; assumption.
  - intros _. exists x. split; [left; reflexivity | exact Ex].
Qed.

Lemma stack_None {V : Type} (hs : list (Hidden V)) :
  stack hs = None <->
  hs = [] \/ exists h h', In h hs /\ In h' hs /\ Embedding.shape h <> Embedding.shape h'.
Proof.
  destruct hs as [|h0 rest]; simpl.
  - split; [intros _; left; reflexivity | reflexivity].
  - destruct (forallb _ rest) eqn:E.
    + split; [discriminate |]. intros [Hn | [h [h' [Hh [Hh' Hne]]]]]; [discriminate |].
      exfalso. apply Hne.
      assert (Hs : forall x, h0 = x \/ In x rest -> Embedding.shape x = Embedding.shape h0).
      { intros x [<- | Hx]; [reflexivity |].
        rewrite forallb_forall in E. specialize (E x Hx).
        destruct (list_eq_dec Nat.eq_dec (Embedding.shape x) (Embedding.shape h0)); [assumption | discriminate]. }
      rewrite (Hs h Hh), (Hs h' Hh'). reflexivity.
    + split; [intros _ | reflexivity]. right.
      destruct (forallb_false _ _ E) as [h [Hin Hb]].
      exists h, h0. split; [right; exact Hin |]. split; [left; reflexivity |].
      destruct (list_eq_dec Nat.eq_dec (Embedding.shape h) (Embedding.shape h0)); [discriminate Hb | assumption].
Qed.

(** [get_embedding] stacks every hidden state before it keeps the last
    five: pooling fails exactly when the encoder returns no hidden state or
    two of different shapes, wherever they stand, and otherwise the states
    before the last five do not change the result; two encoders that agree
    on their last five layers and fail to pool on the same inputs give the
    same embedding, in either mode. *)
Theorem pool_stacks_all_layers (V : Type) (vmean : list V -> V) :
  (forall hs : list (Hidden V),
     pool vmean hs = None <->
     hs = [] \/ exists h h', In h hs /\ In h' hs /\ Embedding.shape h <> Embedding.shape h')
  /\ (forall pre pre' hs : list (Hidden V), 5 <= length hs ->
        pool vmean (pre ++ hs) <> None -> pool vmean (pre' ++ hs) <> None ->
        pool vmean (pre ++ hs) = pool vmean (pre' ++ hs))
  /\ (forall bert bert' : Batch2 -> Batch2 -> Batch2 -> list (Hidden V),
        (forall a b c, last_layers 5 (bert a b c) = last_layers 5 (bert' a b c)) ->
        (forall a b c, pool vmean (bert a b c) = None <-> pool vmean (bert' a b c) = None) ->
        forall enable_chunk a b c,
          get_embedding vmean bert enable_chunk a b c
          = get_embedding vmean bert' enable_chunk a b c).
Proof.
  assert (Hpool : forall hs : list (Hidden V),
            pool vmean hs = None <-> stack hs = None).
  { intros hs. unfold pool. destruct (stack hs); split; congruence. }
  assert (Hval : forall hs : list (Hidden V), pool vmean hs <> None ->
            pool vmean hs = Some (mean0 vmean (last_layers 5 hs))).
  { intros hs H. unfold pool in *. destruct (stack hs) as [st|] eqn:E; [| congruence].
    apply stack_Some in E. subst st. reflexivity. }
  assert (Hsame : forall hs hs' : list (Hidden V),
            last_layers 5 hs = last_layers 5 hs' ->
            (pool vmean hs = None <-> pool vmean hs' = None) ->
            pool vmean hs = pool vmean hs').
  { intros hs hs' Hl Hn.
    destruct (pool vmean hs) as [e|] eqn:E.
    - assert (E' : pool vmean hs' <> None).
      { intros H. apply Hn in H. discriminate H. }
      rewrite (Hval hs') by exact E'. rewrite <- Hl, <- (Hval hs) by congruence.
      symmetry. exact E.
    - symmetry. apply Hn. reflexivity. }
  split; [| split].
  - intros hs. rewrite Hpool. apply stack_None.
  - intros pre pre' hs H Hp Hp'. rewrite (Hval _ Hp), (Hval _ Hp').
    rewrite !last_layers_app by exact H. reflexivity.
  - intros bert bert' Hl Hn enable_chunk a b c. unfold get_embedding.
    destruct enable_chunk.
    + rewrite (map_opt_ext (chunk_embedding vmean bert) (chunk_embedding vmean bert'));
        [reflexivity |].
      intros [[x y] z]. unfold chunk_embedding. apply Hsame; [apply Hl | apply Hn].
    + apply Hsame; [apply Hl | apply Hn].
Qed.

End ForwardExtra.

Module ExtraWitnesses.
Import Embedding EmbeddingFacts Dataset DatasetFacts Collate Steps Forward
  DatasetExtra CollateExtra ForwardExtra Witnesses DatasetWitnesses StepsWitnesses.

Definition ds_sentences : SuMM :=
  {| data := frame_ex; process_paper_level := false;
     papers_dict := group_indices (rows frame_ex) |}.

Lemma frame_ex_texts : Forall (fun r => text r <> None) (rows frame_ex).
Proof. repeat constructor; discriminate. Qed.

Lemma getitem_out_of_range_witness : len ds_ex = 2 /\ getitem tok ds_ex 2 = None.
Proof.
  destruct (getitem_out_of_range tok frame_ex true ds_ex eq_refl) as [Hlen Hout].
  split; [rewrite Hlen; reflexivity | apply Hout; vm_compute; lia].
Defined.

Lemma getitem_sentence_defined_witness :
  getitem tok ds_sentences 2 <> None
  /\ getitem tok ds_sentences 4 = None.
Proof.
  split.
  - apply (proj2 (proj1 (getitem_sentence_defined tok frame_ex ds_sentences 2 eq_refl))).
    split; [vm_compute; lia | split; [reflexivity | split; [reflexivity | discriminate]]].
  - destruct (getitem tok ds_sentences 4) eqn:E; [| reflexivity].
    exfalso.
    assert (H : getitem tok ds_sentences 4 <> None) by (rewrite E; discriminate).
    apply (proj1 (proj1 (getitem_sentence_defined tok frame_ex ds_sentences 4 eq_refl))) in H.
    destruct H as [H _]. vm_compute in H. lia.
Defined.

Lemma getitem_paper_defined_witness : getitem tok ds_ex 1 <> None.
Proof.
  apply (proj2 (proj1 (getitem_paper_defined tok frame_ex ds_ex eq_refl eq_refl eq_refl
                         frame_ex_texts 1))).
  vm_compute. lia.
Defined.

Lemma getitem_paper_partition_witness :
  exists exs sentences,
    map_opt (getitem tok ds_ex) (seq 0 (len ds_ex)) = Some exs
    /\ Permutation sentences (rows frame_ex)
    /\ concat (map input_ids exs)
       = concat (map (fun r => enc_input_ids (sentence_encoding tok r)) sentences).
Proof.
  destruct (getitem_paper_partition tok frame_ex ds_ex eq_refl eq_refl eq_refl
              frame_ex_texts) as [exs [Hm [sentences [Hp [Hids _]]]]].
  exists exs, sentences. split; [exact Hm | split; [exact Hp | exact Hids]].
Defined.

Lemma collate_padding_labels_witness :
  exists out, collate batch_ex = Some out
    /\ expand_targets (b_targets out)
       = Some {| shape := [4; 2]; tdata := [1; 0; 0; 1; 1; 0; 0; 1]%Q |}.
Proof.
  destruct (collate_padding_labels batch_ex ltac:(discriminate)
              ltac:(repeat constructor)) as [out [Hc [_ Hpos]]].
  exists out. split; [exact Hc |]. rewrite Hpos by (vm_compute; lia). reflexivity.
Defined.

(** One example of 600 tokens. *)
Definition exs600 : list Example :=
  [{| input_ids := repeat 1%Z 600; attention_mask := repeat 1%Z 600;
      token_type_ids := repeat 0%Z 600; targets := repeat (FNum 1) 600 |}].

Definition l1_ex (v : Z) : list Q := [inject_Z v; 0%Q].
Definition softmax_ex (l : list Q) : list Q := l.
Definition bce_ex0 (o l : Tensor) : Q := 0%Q.

Lemma steps_need_chunking_witness :
  exists batch h,
    collate exs600 = Some batch
    /\ forward zsum bert_toy l1_ex softmax_ex
         (by_position (b_input_ids batch) (max_len exs600))
         (by_position (b_attention_mask batch) (max_len exs600))
         (by_position (b_token_type_ids batch) (max_len exs600)) false true = Some h
    /\ length h = 512
    /\ loss_of bce_ex0 (as_tensor 1 h) batch = None.
Proof.
  assert (Hc : exists batch, collate exs600 = Some batch) by (eexists; vm_compute; reflexivity).
  destruct Hc as [batch Hc].
  destruct (steps_need_chunking Z zsum bert_toy l1_ex softmax_ex bce_ex0 exs600 batch
              bert_toy_keeps_length ltac:(repeat constructor) Hc ltac:(vm_compute; lia)
              false true) as [h [Hf [Hl Hiff]]].
  exists batch, h. split; [exact Hc |]. split; [exact Hf |].
  split; [rewrite Hl; reflexivity |].
  destruct (loss_of bce_ex0 (as_tensor 1 h) batch) as [p|] eqn:E; [| reflexivity].
  exfalso.
  assert (H : loss_of bce_ex0 (as_tensor (length exs600) h) batch <> None)
    by (change (length exs600) with 1; rewrite E; discriminate).
  apply Hiff in H. destruct H as [H | H]; [discriminate H | vm_compute in H; lia].
Defined.

Lemma get_embedding_first_window_witness :
  exists e,
    get_embedding zsum bert_toy true (repeat [3%Z] 600) (repeat [1%Z] 600) (repeat [0%Z] 600)
      = Some e
    /\ get_embedding zsum bert_toy false (repeat [3%Z] 600) (repeat [1%Z] 600)
         (repeat [0%Z] 600) = Some (firstn 512 e).
Proof.
  apply (get_embedding_first_window Z zsum bert_toy _ _ _ 600 bert_toy_keeps_length);
    [apply repeat_length | apply repeat_length | apply repeat_length | lia].
Defined.

(** A first hidden state of another shape in front of five of one shape:
    the five alone pool, the six do not. *)
Definition layer_ex (n : nat) : Hidden Z := [repeat 1%Z n].
Definition layers_ok : list (Hidden Z) := repeat (layer_ex 2) 5.

Lemma pool_stacks_all_layers_witness :
  pool zsum (layer_ex 1 :: layers_ok) = None /\ pool zsum layers_ok = Some [[5; 5]%Z]
  /\ last_layers 5 (layer_ex 1 :: layers_ok) = layers_ok.
Proof.
  destruct (pool_stacks_all_layers Z zsum) as [Hn _].
  split; [| split; reflexivity].
  apply (proj2 (Hn _)). right. exists (layer_ex 1), (layer_ex 2).
  split; [left; reflexivity |]. split; [right; left; reflexivity | discriminate].
Defined.

End ExtraWitnesses.
